(* ===== verification/_CoqProject ===== *)
-Q . S2P
Prelude.v
Runtime.v
Retry.v
Batch.v
Prompt.v
Cost.v
Api.v
Pipeline.v
ModuleInit.v
