(* ===== verification/Prelude.v ===== *)
(** * A verification of [lm_classification.utils.api]

    The program is one Python module, [src/lm_classification/utils/api.py]
    (119 lines).  It is a thin layer over the OpenAI completion endpoint,
    used to classify texts by scoring prompts.  It has four parts, and
    they interact only through calls:

    - [openai_method_retry] (lines 40-60) calls an OpenAI method.  It
      catches [ServiceUnavailableError] and [RateLimitError], logs, sleeps
      [sleep_sec] and tries again, at most [max_num_tries] times.  When the
      tries run out it re-raises the last error it caught.
    - [_openai_api_call_is_ok] (lines 67-87) estimates the token count and
      the dollar cost of a call.  It then reads lines from the operator
      until one is ["y"] or ["n"], and raises [UserCanceled] on ["n"].
    - [gpt3_complete] (lines 90-119) composes them.  A bare string becomes
      a one-element list.  It optionally asks for confirmation, cuts the
      texts into batches of 20 with [batch.constant], and calls
      [openai.Completion.create] once per batch through the retry wrapper.
      The responses' ["choices"] are concatenated into one list, and a
      [tqdm] progress bar is updated once per batch.
    - [batch.constant] lives in [lm_classification/utils/batch.py],
      which is not in [src/].  It is modelled from the spec (section
      4.1): a lazy sequence of consecutive slices of size [k], with an
      error when [k <= 0].

    ** Files of the development (in [_CoqProject] order)

    - [Prelude] (this file) holds what the components share.  That is a
      state-and-error monad [st S E A = S -> (E + A) * S], written
      [let* x := c in k] in [lmc_scope], with [raise], [catch], [finally]
      (Python's [try/finally]) and [fold_m] (a [for] loop updating a
      local).  The pointwise equivalence [=m=] of actions has [Proper]
      instances, so proofs rewrite under handlers.  The file also holds
      counting with [count_if] and the list lemmas the files share.
    - [Runtime] models the Python runtime the module runs in.  The
      [world] record holds the endpoint [w_endpoint] (call index and
      request to response or exception), the counter [w_calls], the
      operator's stdin lines and the trace of [event]s: calls, log
      records, sleeps, prompts and progress-bar events.  The inductive
      [exc] lists the exceptions.  The primitives are
      [completion_create], [time_sleep] (raises [ValueError] on a
      negative length, as CPython does), [input] (records the prompt
      text, raises [EOFError] on closed stdin), [log], [with_progress]
      and [progress_update].  [appends P m] (an action keeps the
      endpoint and only appends events satisfying [P]) is closed under
      every combinator (hint database [lmc_trace]);
      [with_progress_shape] shows the bar is opened first and closed
      last whatever the body does.
    - [Retry] models [openai_method_retry].  [retry_loop] is the
      [while] loop, with [num_tries] and the local [exception] as an
      [option] (unbound until the first caught error).
      [retry_exhausted] is lines 59-60.  Module [RetrySpec] is the
      spec's machine (section 4.2): the step relation [rstep] over
      [Attempting]/[Sleeping]/[Succeeded]/[Exhausted], runs [rsteps]
      counting sleeps, determinism, and a sleep budget proved by rule
      induction.  [calls_within r lo hi m] (between [lo] and [hi] calls,
      all with request [r], no bar update) is closed under [bind] and
      [catch], and [retry_loop_calls] bounds the loop's calls by the
      counter, for any endpoint and any fuel.
    - [Batch] models [batch.constant] from the spec: the file
      [lm_classification/utils/batch.py] is not in [src/].  It is Python
      slicing over [range(0, len, size)] with [InvalidArgument] on
      [size <= 0].  It is proved equal to the Equations reference
      [chunks], whose laws it also proves: the concatenation is the
      input, every batch but the last is full, no batch is empty, and
      there are [ceil(n/k)] batches.  The class [Batcher] is the
      contract the orchestration relies on; [Batch] is its instance, and
      [chunking_unique] shows the contract fixes the batches.
    - [Prompt] models the text of the confirmation prompt (lines
      84-85): [format_grouped] is [f'{n:_}'] on the decimal digits of
      [Z.to_int], [str_cost] is [str] of the rounded cost, and
      [prompt_text] the whole f-string.
    - [Cost] models [_openai_api_call_is_ok].  It covers the token
      estimate, the dictionary [model_to_cost_per_1k] (a [gmap] filled
      left to right as [dict(zip(...))] does), [round(x, 2)] as
      [py_round2], and the [while output not in {'y', 'n'}] loop
      [confirm_loop], which shows [prompt_text] at every [input()].
    - [Api] models [gpt3_complete] against [Batcher], with witnesses run
      on the [Batch] instance.  It also models how
      [**openai_completion_kwargs] bind at line 112: [retry_params]
      gives the retry wrapper's [max_num_tries] and [sleep_sec] (a key
      of that name overrides the default and is not forwarded,
      [forwarded_kwargs]) or the [TypeError] of a key [prompt] or
      [openai_method].  Its theorems assume an endpoint that always
      answers and keyword arguments that leave the wrapper at its
      defaults.
    - [Pipeline] drops those assumptions: [gpt3_complete] against any
      endpoint and any retry budget the keyword arguments bind, an
      endpoint that recovers within the budget, one that is down, one
      that answers [n] choices per prompt, and keyword arguments that
      cannot be bound.
    - [ModuleInit] models what importing the module leaves behind
      (lines 22-25): [openai.api_key] read from [os.environ] and the
      tokenizer loaded by [GPT2Tokenizer.from_pretrained].

    ** What the theorems show

    - Orchestration ([Api]), on an endpoint that answers every prompt,
      with the retry wrapper at its defaults: the result is the
      per-batch choices concatenated in order ([gpt3_complete_answers]).
      It is index-aligned with the input, the [i]-th choice carrying
      the batch-relative index [i mod 20] ([gpt3_complete_aligned]).
      There is one call per batch, [ceil(N/20)] calls
      ([gpt3_complete_calls]), and the prompts concatenate back to the
      texts ([gpt3_complete_prompts_roundtrip]).  Any contract-abiding
      batcher yields the slices of 20 ([batches_determined]), and
      [batch.constant] at [_batch_size] is the reference
      ([constant_at_batch_size]).  A declined prompt makes no call
      ([gpt3_complete_declined]).  The progress bar sums to
      [len(texts)] ([gpt3_complete_progress]), and a bare string is one
      prompt ([gpt3_complete_bare_string]).
    - Retry ([Retry]): exact traces for success after [n] retryable
      failures ([openai_method_retry_success]), exhaustion
      ([openai_method_retry_exhausted]) and a fatal error
      ([openai_method_retry_fatal]).  The code refines the spec's
      machine ([openai_method_retry_refines]).  The fuel never cuts the
      loop ([retry_loop_fuel_irrelevant]).  [max_num_tries <= 0] raises
      [UnboundLocalError] ([openai_method_retry_nonpositive]), and a
      negative sleep ends the wrapper with [ValueError]
      ([openai_method_retry_negative_sleep]).  For any endpoint and any
      fuel, a run makes one to [max_num_tries] calls, all with the same
      request, and sleeps at most once per call
      ([retry_loop_calls_bounded]).
    - Cost gate ([Cost]): declined, accepted and closed-stdin runs
      ([openai_api_call_declined], [openai_api_call_accepted],
      [openai_api_call_eof]).  The cost is ['unknown'] exactly off the
      price table ([cost_of_unknown]); it shows [$0.0] for
      [text-ada-001] below 12,500 tokens ([cost_ada_rounds_to_zero]).
      The prompt the operator reads is the f-string at the estimate, and
      its token count reads back to the estimate
      ([gate_prompt_shows_estimate]).
    - Pipeline ([Pipeline]), any endpoint: calls go batch after batch,
      one to [max_num_tries] per batch, inside the bar; a run that
      returns tried every batch, and a run that raises stopped at the
      failing batch ([gpt3_complete_call_order]).  With or without the
      gate, prompts come first and the bar, once opened, is closed,
      with only calls, logs, sleeps and updates inside
      ([gpt3_complete_bar_closed]).  Outages shorter than the budget
      leave the result unchanged ([gpt3_complete_recovers], liveness).
      A permanent outage raises the last try's error after
      [max_num_tries] calls and as many sleeps on the first batch, and
      the bar is not advanced ([gpt3_complete_outage]).  A keyword
      argument that cannot be bound raises [TypeError] before any call
      ([gpt3_complete_kwargs_rejected]).  With [n = m] completions per
      prompt the result has [m * len(texts)] choices
      ([gpt3_complete_multiple_choices]).  Confirming at the prompt only
      adds the prompts ([gpt3_complete_confirmed]).  The gate's token
      estimate is the sum of the estimates of the prompt lists sent
      ([gpt3_complete_estimate_covers_calls]).  The pipeline refines the
      spec's orchestration contract [answered]: a result is the choices
      of one answered call per chunk, in chunk order and in call order,
      for any endpoint and any keyword arguments
      ([gpt3_complete_refines_spec]).  Every call is followed by a
      sleep, or advanced the bar, or raised the non-retryable error that
      ended the run ([gpt3_complete_balance]).
    - Prompt ([Prompt]): the grouping is PEP 515's groups of three from
      the right ([group3_spec]), the formatted count reads back to the
      number ([format_grouped_roundtrip]), and the prompt shows the
      exact token count whatever the cost ([prompt_text_tokens]).

    ** Modelling choices

    - Python [int]s are [Z] where their sign matters ([max_num_tries],
      [max_tokens], the batch size).  Lengths and counts are [nat].
    - Python floats ([sleep_sec], costs) are exact rationals [Q].  So
      [round(x, 2)] is round-half-even of the exact rational, where
      CPython rounds the binary float nearest to it.  The two differ
      when the exact cost is a tie, a whole number of half cents: then
      the float is slightly above or below the tie and CPython rounds by
      that error, not to even.  For [text-ada-001] at 12,500 tokens the
      exact cost [0.005] rounds to [0.0], CPython shows [0.01]; the
      theorem on that model stops below 12,500 tokens.
    - [**openai_completion_kwargs] is an association list of
      [kwval]s.  [retry_params] reads [max_num_tries] as the test
      [num_tries < max_num_tries] does (a float by its ceiling, a bool as
      [0]/[1]) and refuses a string or [None] with [TypeError].  For
      [sleep_sec] Python raises that [TypeError] only at the first
      [time.sleep], after a retryable error; the model raises it before
      the first call, and no theorem covers a non-numeric [sleep_sec].
      [model] and [max_tokens] cannot be keys: they bind
      [gpt3_complete]'s own parameters.
    - The tokenizer is a parameter [tokenize : string -> list Z], and
      [num_tokens] sums its lengths text by text.  The Hugging Face
      tokenizer called on an empty list raises instead of returning no
      ids; the model gives [0] tokens there, so the gate's behaviour on
      an empty input is not covered by any theorem.
    - Exceptions carry their message as a [string]; the log records
      carry the values the f-strings interpolate, not the formatted
      text.  The prompt event carries the prompt's text.
    - The remote endpoint is a function of the call index and the
      request, so one theorem covers every pattern of failures.  The
      theorems of [Api] assume [answers_all]: every call succeeds and
      answers prompt [j] of a batch with [f j p].  Those of [Pipeline]
      hold for every endpoint, or for the classes [recovers_within],
      [outage] and [answers_by] it defines.
    - [str(cost)] prints the float as [repr] does for a whole number of
      cents: the integer part, a point and one or two decimals.  This is
      Python's output for costs under 10^13 dollars; above that [repr]
      switches to exponent notation, and a negative zero (a negative
      [max_tokens]) prints ["-0.0"], which the rationals cannot hold.
    - Fuel.  The retry loop gets [Z.to_nat max_num_tries] iterations.
      The counter rises by one per iteration, so the [while] test is
      false exactly when the fuel is spent
      ([retry_loop_fuel_irrelevant]), and the call bound comes from the
      counter whatever the fuel.  The confirmation loop gets one
      iteration per stdin line plus one, whose [input()] raises
      [EOFError].  Its theorems hold for any fuel beyond the lines it
      reads, so the fuel never decides the outcome.

    ** Not modelled

    The logger of line 19 is not modelled; it only names where the log
    records go.  The download behind [GPT2Tokenizer.from_pretrained]
    (line 25) is outside the program; [ModuleInit] takes the loader as a
    parameter, and the gate's [tokenize] is what it returns.  What the
    [openai] client does with [openai.api_key] is the library's.  Nor
    are the [logging] configuration, [tqdm]'s rendering and the HTTP
    transport of the [openai] client modelled; they appear only as
    trace events or as the endpoint function.  The text of the log
    records is not modelled either: [str(sleep_sec)] prints ["10"] for
    the [int] default and ["10.0"] for a [float], and [Q] does not
    record which one the caller passed.  The rest of [api.py] is
    imports, the docstring and blank lines. *)

From Stdlib Require Import String List ZArith Lia Morphisms Setoid.
Import ListNotations.

(** ** A state-and-error monad *)

Declare Scope lmc_scope.
Delimit Scope lmc_scope with lmc.

Definition st (S E A : Type) : Type := S -> (E + A) * S.

Section Monad.
Context {S E : Type}.

Definition ret {A} (a : A) : st S E A := fun s => (inr a, s).

Definition bind {A B} (m : st S E A) (k : A -> st S E B) : st S E B :=
  fun s => match m s with
           | (inr a, s') => k a s'
           | (inl e, s') => (inl e, s')
           end.

Definition raise {A} (e : E) : st S E A := fun s => (inl e, s).

Definition get : st S E S := fun s => (inr s, s).

Definition modify (f : S -> S) : st S E unit := fun s => (inr tt, f s).

(** [try: m except e: h e]; the handler decides which errors it takes
    and re-raises the others. *)
Definition catch {A} (m : st S E A) (h : E -> st S E A) : st S E A :=
  fun s => match m s with
           | (inl e, s') => h e s'
           | r => r
           end.

(** [try: m finally: c]: [c] runs whatever [m] did; an error of [c]
    replaces the outcome of [m], as in Python. *)
Definition finally {A} (m : st S E A) (c : st S E unit) : st S E A :=
  fun s => match m s with
           | (r, s') => match c s' with
                        | (inr _, s'') => (r, s'')
                        | (inl e, s'') => (inl e, s'')
                        end
           end.

(** A Python [for x in xs:] loop whose body updates the local [acc]. *)
Fixpoint fold_m {A X} (body : A -> X -> st S E A) (acc : A) (xs : list X)
  : st S E A :=
  match xs with
  | [] => ret acc
  | x :: xs' => bind (body acc x) (fun acc' => fold_m body acc' xs')
  end.
End Monad.

Arguments ret {S E A} a s /.
Arguments raise {S E A} e s /.
Arguments get {S E} s /.
Arguments modify {S E} f s /.

Notation "'let*' x ':=' c 'in' k" := (bind c (fun x => k))
  (at level 10, x name, c at level 100, k at level 200) : lmc_scope.
Open Scope lmc_scope.

(** ** Running monadic code *)

Section MonadLemmas.
Context {S E : Type}.

Lemma bind_ret_l {A B} (a : A) (k : A -> st S E B) s :
  bind (ret a) k s = k a s.
Proof. reflexivity. Qed.

Lemma bind_raise {A B} (e : E) (k : A -> st S E B) s :
  bind (raise e) k s = (inl e, s).
Proof. reflexivity. Qed.

Lemma bind_assoc {A B C} (m : st S E A) (k : A -> st S E B)
      (k' : B -> st S E C) s :
  bind (bind m k) k' s = bind m (fun a => bind (k a) k') s.
Proof. unfold bind. destruct (m s) as [[e|a] s']; reflexivity. Qed.

Lemma bind_inr {A B} (m : st S E A) (k : A -> st S E B) s a s' :
  m s = (inr a, s') -> bind m k s = k a s'.
Proof. intros H. unfold bind. rewrite H. reflexivity. Qed.

Lemma bind_inl {A B} (m : st S E A) (k : A -> st S E B) s e s' :
  m s = (inl e, s') -> bind m k s = (inl e, s').
Proof. intros H. unfold bind. rewrite H. reflexivity. Qed.

Lemma catch_inr {A} (m : st S E A) h s a s' :
  m s = (inr a, s') -> catch m h s = (inr a, s').
Proof. intros H. unfold catch. rewrite H. reflexivity. Qed.

Lemma catch_inl {A} (m : st S E A) h s e s' :
  m s = (inl e, s') -> catch m h s = h e s'.
Proof. intros H. unfold catch. rewrite H. reflexivity. Qed.

Lemma fold_m_app {A X} (body : A -> X -> st S E A) acc xs ys s :
  fold_m body acc (xs ++ ys) s
  = bind (fold_m body acc xs) (fun acc' => fold_m body acc' ys) s.
Proof.
  revert acc s. induction xs as [|x xs IH]; intros acc s; [reflexivity|].
  simpl. rewrite bind_assoc.
  destruct (body acc x s) as [[e|a] s'] eqn:H.
  - rewrite !(bind_inl _ _ _ _ _ H). reflexivity.
  - rewrite !(bind_inr _ _ _ _ _ H). apply IH.
Qed.
End MonadLemmas.

(** ** Pointwise equivalence of actions

    Two actions are equivalent when they agree on every start state.  It
    is coarser than [=] on functions (no extensionality is assumed), and
    the combinators respect it, so [setoid_rewrite] works under binders. *)

Definition meq {S E A} (m1 m2 : st S E A) : Prop := forall s, m1 s = m2 s.
Infix "=m=" := meq (at level 70) : lmc_scope.

Section MeqInstances.
Context {S E : Type}.

#[export] Instance meq_equivalence {A} : Equivalence (@meq S E A).
Proof.
  split.
  - intros m s. reflexivity.
  - intros m1 m2 H s. symmetry. apply H.
  - intros m1 m2 m3 H1 H2 s. rewrite H1. apply H2.
Qed.

#[export] Instance bind_proper {A B} :
  Proper (meq ==> pointwise_relation A meq ==> meq) (@bind S E A B).
Proof.
  intros m1 m2 Hm k1 k2 Hk s. unfold bind. rewrite Hm.
  destruct (m2 s) as [[e|a] s']; [reflexivity | apply Hk].
Qed.

#[export] Instance catch_proper {A} :
  Proper (meq ==> pointwise_relation E meq ==> meq) (@catch S E A).
Proof.
  intros m1 m2 Hm h1 h2 Hh s. unfold catch. rewrite Hm.
  destruct (m2 s) as [[e|a] s']; [apply Hh | reflexivity].
Qed.

#[export] Instance finally_proper {A} :
  Proper (meq ==> meq ==> meq) (@finally S E A).
Proof.
  intros m1 m2 Hm c1 c2 Hc s. unfold finally. rewrite Hm.
  destruct (m2 s) as [r s']. rewrite Hc. reflexivity.
Qed.
End MeqInstances.

(** ** Generic list lemmas *)

Section Lists.
Context {A : Type}.

Lemma length_firstn_full (k : nat) (l : list A) :
  k <= length l -> length (firstn k l) = k.
Proof. intros H. rewrite length_firstn. lia. Qed.

(** The number of elements satisfying [p], as Python's
    [sum(1 for x in l if p(x))]. *)
Definition count_if (p : A -> bool) (l : list A) : nat :=
  length (filter p l).

Lemma count_if_app p (l1 l2 : list A) :
  count_if p (l1 ++ l2) = count_if p l1 + count_if p l2.
Proof. unfold count_if. rewrite filter_app, length_app. reflexivity. Qed.

Lemma count_if_cons_true p (x : A) l :
  p x = true -> count_if p (x :: l) = S (count_if p l).
Proof. intros H. unfold count_if. simpl. rewrite H. reflexivity. Qed.

Lemma count_if_cons_false p (x : A) l :
  p x = false -> count_if p (x :: l) = count_if p l.
Proof. intros H. unfold count_if. simpl. rewrite H. reflexivity. Qed.

Lemma count_if_nil p : count_if p [] = 0.
Proof. reflexivity. Qed.
End Lists.

