(* ===== verification/Runtime.v ===== *)
(** * The Python runtime of [api.py]

    The exceptions the module raises or catches, the data exchanged with
    the OpenAI endpoint, the observable events, and the [world] that the
    monad [M] threads.  The primitives are [completion_create],
    [time_sleep], [input], [log] and the progress bar.  The predicate
    [appends P m] (only events satisfying [P] are appended) has its
    closure lemmas in the [lmc_trace] database. *)

From Stdlib Require Import String List ZArith QArith Lia.
From S2P Require Import Prelude.
Import ListNotations.

(** ** Exceptions *)

(** [openai.error.ServiceUnavailableError] and [openai.error.RateLimitError]
    are the two errors the retry wrapper catches (api.py:52-53).  Every
    other [openai.error] is [OpenAIError].  [UserCanceled] is api.py:63.
    [EOFError] is what [input()] raises on a closed stdin.
    [UnboundLocalError] is what reading an unassigned local raises.
    [ValueError] is raised by [time.sleep] on a negative length.
    [InvalidArgument] is the error the spec (section 4.1) gives
    [batch.constant] for a non-positive size.  [TypeError] is what Python
    raises when a call binds a parameter twice, or compares an [int] with
    a value that has no order with it. *)
Inductive exc : Type :=
| ServiceUnavailableError (msg : string)
| RateLimitError (msg : string)
| OpenAIError (msg : string)
| UserCanceled
| EOFError
| UnboundLocalError (name : string)
| ValueError (msg : string)
| InvalidArgument (msg : string)
| TypeError (msg : string).

(** The [except (ServiceUnavailableError, RateLimitError)] clause. *)
Definition is_retryable (e : exc) : bool :=
  match e with
  | ServiceUnavailableError _ | RateLimitError _ => true
  | _ => false
  end.

(** ** Requests and responses *)

(** The values of [**openai_completion_kwargs]: Python literals of the
    types the endpoint's parameters take. *)
Inductive kwval : Type :=
| KwInt (z : Z)
| KwFloat (q : Q)
| KwStr (s : string)
| KwBool (b : bool)
| KwNone.

(** The keyword arguments of one [openai.Completion.create] call
    (api.py:112-116). *)
Record request : Type := mk_request {
  req_prompt : list string;
  req_model : string;
  req_max_tokens : Z;
  req_kwargs : list (string * kwval)
}.

(** One element of [response['choices']]; the module never looks inside. *)
Record choice : Type := mk_choice {
  choice_index : nat;
  choice_text : string;
  choice_finish_reason : string
}.

Record response : Type := mk_response { choices : list choice }.

(** ** Observable events *)

Inductive log_level : Type := INFO | ERROR.

(** The values each [logger] call of [openai_method_retry] interpolates. *)
Inductive log_msg : Type :=
| LogOpenaiError (e : exc)
| LogTry (num_tries : Z) (sleep_sec : Q)
| LogMaxRetries (e : exc).

(** The [cost] shown by the confirmation prompt: ['unknown'] or dollars. *)
Inductive cost_shown : Type :=
| CostUnknown
| CostDollars (c : Q).

Inductive event : Type :=
| EvCall (r : request)
| EvLog (lvl : log_level) (m : log_msg)
| EvSleep (secs : Q)
| EvPrompt (prompt : string)
| EvProgressOpen (total : nat)
| EvProgressUpdate (n : nat)
| EvProgressClose.

Definition is_call (ev : event) : bool :=
  match ev with EvCall _ => true | _ => false end.

Definition is_sleep (ev : event) : bool :=
  match ev with EvSleep _ => true | _ => false end.

(** The requests of the remote calls in a trace, in order. *)
Fixpoint calls_of (t : list event) : list request :=
  match t with
  | [] => []
  | EvCall r :: t' => r :: calls_of t'
  | _ :: t' => calls_of t'
  end.

(** The progress-bar increments of a trace, in order. *)
Fixpoint progress_of (t : list event) : list nat :=
  match t with
  | [] => []
  | EvProgressUpdate n :: t' => n :: progress_of t'
  | _ :: t' => progress_of t'
  end.

Lemma calls_of_app t1 t2 : calls_of (t1 ++ t2) = calls_of t1 ++ calls_of t2.
Proof. induction t1 as [|[] t1 IH]; simpl; rewrite ?IH; reflexivity. Qed.

Lemma progress_of_app t1 t2 : progress_of (t1 ++ t2) = progress_of t1 ++ progress_of t2.
Proof. induction t1 as [|[] t1 IH]; simpl; rewrite ?IH; reflexivity. Qed.

(** Events that are neither a remote call nor a progress update: log
    records, sleeps, prompts and the bar's opening and closing. *)
Definition silent (ev : event) : Prop := calls_of [ev] = [] /\ progress_of [ev] = [].

Lemma silent_trace t : Forall silent t -> calls_of t = [] /\ progress_of t = [].
Proof.
  induction 1 as [|ev t [Hc Hp] _ [IHc IHp]]; [auto|].
  change (ev :: t) with ([ev] ++ t). rewrite calls_of_app, progress_of_app, Hc, Hp, IHc, IHp.
  auto.
Qed.

(** ** The world *)

(** [w_endpoint i r] is the outcome of the [i]-th remote call (from 0) if
    its request is [r]; [w_calls] counts the calls made; [w_stdin] are the
    lines still to be typed; [w_trace] is everything observable so far. *)
Record world : Type := mk_world {
  w_endpoint : nat -> request -> exc + response;
  w_calls : nat;
  w_stdin : list string;
  w_trace : list event
}.

Abbreviation M := (st world exc).

Definition add_event (ev : event) (w : world) : world :=
  mk_world (w_endpoint w) (w_calls w) (w_stdin w) (w_trace w ++ [ev]).

Definition emit (ev : event) : M unit := modify (add_event ev).

(** ** Primitives *)

(** [openai.Completion.create] with the keywords of [r]: the endpoint answers the call by its
    index; the call is recorded whatever the answer. *)
Definition completion_create (r : request) : M response :=
  fun w => (w_endpoint w (w_calls w) r,
            mk_world (w_endpoint w) (S (w_calls w)) (w_stdin w)
                     (w_trace w ++ [EvCall r])).

(** [time.sleep(secs)]: CPython raises [ValueError] on a negative length. *)
Definition time_sleep (secs : Q) : M unit :=
  if Qle_bool 0 secs then emit (EvSleep secs)
  else raise (ValueError "sleep length must be non-negative").

Definition log (lvl : log_level) (m : log_msg) : M unit := emit (EvLog lvl m).

(** [input(prompt)]: shows the prompt, then reads one line, or raises
    [EOFError] when stdin is exhausted. *)
Definition input (prompt : string) : M string :=
  fun w =>
    let w1 := add_event (EvPrompt prompt) w in
    match w_stdin w1 with
    | [] => (inl EOFError, w1)
    | line :: rest => (inr line, mk_world (w_endpoint w1) (w_calls w1) rest (w_trace w1))
    end.

(** [with tqdm(total=n) as progress_bar: body]: the bar is closed on
    every exit of the block. *)
Definition with_progress {A} (total : nat) (body : M A) : M A :=
  let* _ := emit (EvProgressOpen total) in
  finally body (emit EvProgressClose).

Definition progress_update (n : nat) : M unit := emit (EvProgressUpdate n).

(** ** World updates in bulk *)

Definition add_events (evs : list event) (w : world) : world :=
  mk_world (w_endpoint w) (w_calls w) (w_stdin w) (w_trace w ++ evs).

(** The world after one remote call with request [r]. *)
Definition call_world (r : request) (w : world) : world :=
  mk_world (w_endpoint w) (S (w_calls w)) (w_stdin w) (w_trace w ++ [EvCall r]).

Lemma add_events_app evs1 evs2 w :
  add_events evs2 (add_events evs1 w) = add_events (evs1 ++ evs2) w.
Proof. unfold add_events. simpl. rewrite app_assoc. reflexivity. Qed.

Lemma add_events_nil w : add_events [] w = w.
Proof. destruct w. unfold add_events. simpl. rewrite app_nil_r. reflexivity. Qed.

Lemma completion_create_run r w :
  completion_create r w = (w_endpoint w (w_calls w) r, call_world r w).
Proof. reflexivity. Qed.

Lemma emit_run ev w : emit ev w = (inr tt, add_events [ev] w).
Proof. reflexivity. Qed.

Lemma time_sleep_run secs w :
  Qle_bool 0 secs = true -> time_sleep secs w = (inr tt, add_events [EvSleep secs] w).
Proof. intros H. unfold time_sleep. rewrite H. reflexivity. Qed.


(** ** The shape of the trace

    [appends P m]: from any world, [m] keeps the endpoint and only
    appends events satisfying [P] to the trace.  Safety properties of
    the whole program (what may be observed, in what order) are proved
    with the closure lemmas of the [lmc_trace] hint database. *)

Definition appends (P : event -> Prop) {A} (m : M A) : Prop :=
  forall w, w_endpoint (snd (m w)) = w_endpoint w /\
    exists t, w_trace (snd (m w)) = w_trace w ++ t /\ Forall P t.

Create HintDb lmc_trace discriminated.

Section Appends.
Variable P : event -> Prop.

Lemma appends_ret {A} (a : A) : appends P (ret a).
Proof. intros w. split; [reflexivity|]. exists []. rewrite app_nil_r. auto. Qed.

Lemma appends_raise {A} (e : exc) : appends P (@raise _ _ A e).
Proof. exact (fun w => appends_ret tt w). Qed.

Lemma appends_get : appends P (@get world exc).
Proof. exact (fun w => appends_ret tt w). Qed.

Lemma appends_emit ev : P ev -> appends P (emit ev).
Proof. intros H w. split; [reflexivity|]. exists [ev]. auto. Qed.

Lemma appends_seq (w w1 w2 : world) :
  w_endpoint w1 = w_endpoint w /\ (exists t, w_trace w1 = w_trace w ++ t /\ Forall P t) ->
  w_endpoint w2 = w_endpoint w1 /\ (exists t, w_trace w2 = w_trace w1 ++ t /\ Forall P t) ->
  w_endpoint w2 = w_endpoint w /\ exists t, w_trace w2 = w_trace w ++ t /\ Forall P t.
Proof.
  intros [E1 (t1 & T1 & F1)] [E2 (t2 & T2 & F2)]. split; [congruence|].
  exists (t1 ++ t2). rewrite T2, T1, app_assoc. split; [reflexivity|].
  apply Forall_app; auto.
Qed.

Lemma appends_bind {A B} (m : M A) (k : A -> M B) :
  appends P m -> (forall a, appends P (k a)) -> appends P (bind m k).
Proof.
  intros Hm Hk w. unfold bind. pose proof (Hm w) as H1.
  destruct (m w) as [[e|a] w1]; [exact H1|].
  exact (appends_seq w w1 _ H1 (Hk a w1)).
Qed.

Lemma appends_catch {A} (m : M A) (h : exc -> M A) :
  appends P m -> (forall e, appends P (h e)) -> appends P (catch m h).
Proof.
  intros Hm Hh w. unfold catch. pose proof (Hm w) as H1.
  destruct (m w) as [[e|a] w1]; [exact (appends_seq w w1 _ H1 (Hh e w1)) | exact H1].
Qed.

Lemma appends_finally {A} (m : M A) (c : M unit) :
  appends P m -> appends P c -> appends P (finally m c).
Proof.
  intros Hm Hc w. unfold finally. pose proof (Hm w) as H1.
  destruct (m w) as [r w1]. pose proof (appends_seq w w1 _ H1 (Hc w1)) as H2.
  destruct (c w1) as [[e|u] w2]; exact H2.
Qed.

Lemma appends_fold_m {A X} (body : A -> X -> M A) acc xs :
  (forall acc x, appends P (body acc x)) -> appends P (fold_m body acc xs).
Proof.
  intros Hb. revert acc. induction xs as [|x xs IH]; intros acc; simpl.
  - apply appends_ret.
  - apply appends_bind; auto.
Qed.

Lemma appends_completion_create r : P (EvCall r) -> appends P (completion_create r).
Proof. intros H w. split; [reflexivity|]. exists [EvCall r]. auto. Qed.

Lemma appends_time_sleep secs : P (EvSleep secs) -> appends P (time_sleep secs).
Proof.
  intros H. unfold time_sleep. destruct (Qle_bool 0 secs).
  - apply appends_emit, H.
  - apply appends_raise.
Qed.

Lemma appends_log lvl m : P (EvLog lvl m) -> appends P (log lvl m).
Proof. apply appends_emit. Qed.

Lemma appends_progress_update n : P (EvProgressUpdate n) -> appends P (progress_update n).
Proof. apply appends_emit. Qed.

Lemma appends_input prompt : P (EvPrompt prompt) -> appends P (input prompt).
Proof.
  intros H w. pose proof (appends_emit _ H w) as H1. unfold input.
  destruct (w_stdin (add_event (EvPrompt prompt) w)); exact H1.
Qed.
End Appends.

Lemma appends_mono (P Q : event -> Prop) {A} (m : M A) :
  (forall ev, P ev -> Q ev) -> appends P m -> appends Q m.
Proof.
  intros HPQ Hm w. destruct (Hm w) as [E (t & T & F)]. split; [exact E|].
  exists t. split; [exact T|]. eapply Forall_impl; eauto.
Qed.

(** [with tqdm(...)]: the body runs after the bar is opened, and the bar
    is closed after it, whatever it returns or raises. *)
Lemma with_progress_run {A} total (body : M A) w :
  with_progress total body w
  = (fst (body (add_events [EvProgressOpen total] w)),
     add_events [EvProgressClose] (snd (body (add_events [EvProgressOpen total] w)))).
Proof.
  unfold with_progress. rewrite (bind_inr _ _ _ _ _ (emit_run _ _)).
  unfold finally. destruct (body _) as [r w1]. reflexivity.
Qed.

Lemma with_progress_shape {A} (P : event -> Prop) total (body : M A) w :
  appends P body ->
  w_endpoint (snd (with_progress total body w)) = w_endpoint w /\
  exists t, w_trace (snd (with_progress total body w))
            = w_trace w ++ EvProgressOpen total :: t ++ [EvProgressClose] /\ Forall P t.
Proof.
  intros Hb. rewrite with_progress_run.
  destruct (Hb (add_events [EvProgressOpen total] w)) as [E (t & T & F)].
  split; [exact E|]. exists t. split; [|exact F].
  simpl. rewrite T. simpl. rewrite <- !app_assoc. reflexivity.
Qed.

#[export] Hint Resolve appends_ret appends_raise appends_get appends_emit appends_bind
  appends_catch appends_finally appends_fold_m appends_completion_create
  appends_time_sleep appends_log appends_progress_update appends_input : lmc_trace.
#[export] Hint Extern 1 (silent _) => split; reflexivity : lmc_trace.
