(* ===== verification/Retry.v ===== *)
(** * [openai_method_retry] (api.py:40-60)

    [retry_loop] is the [while] loop of the function with its state
    ([num_tries] and the local [exception], unbound until the first
    caught error).  Its fuel is the number of iterations the [while] test
    can allow; [retry_loop_fuel_irrelevant] shows any larger fuel computes
    the same, so the fuel never cuts the loop short.  Module [RetrySpec]
    models the state machine of the spec (section 4.2) as a step relation
    and proves that the code refines it.  Section [Calls] bounds the calls
    of the loop for any endpoint. *)

From Stdlib Require Import String List ZArith QArith Lia Morphisms Setoid.
From S2P Require Import Prelude Runtime.
Import ListNotations.
Local Open Scope Z_scope.

Section Retry.
Context {A : Type}.
(** [openai_method] applied to [openai_method_kwargs]: the call, with its
    arguments already bound. *)
Variable openai_method : M A.
Variable max_num_tries : Z.
Variable sleep_sec : Q.

(** Lines 59-60, after the loop.  Reading [exception] before any
    assignment raises [UnboundLocalError] inside the f-string, before
    anything is logged. *)
Definition retry_exhausted (exception : option exc) : M A :=
  match exception with
  | None => raise (UnboundLocalError "exception")
  | Some e => let* _ := log ERROR (LogMaxRetries e) in raise e
  end.

(** Lines 49-58, the loop. *)
Fixpoint retry_loop (fuel : nat) (num_tries : Z) (exception : option exc)
  : M A :=
  match fuel with
  | O => retry_exhausted exception
  | S fuel' =>
      if num_tries <? max_num_tries then
        catch openai_method
          (fun e =>
             if is_retryable e then
               let* _ := log INFO (LogOpenaiError e) in
               let* _ := log INFO (LogTry (num_tries + 1) sleep_sec) in
               let* _ := time_sleep sleep_sec in
               retry_loop fuel' (num_tries + 1) (Some e)
             else raise e)
      else retry_exhausted exception
  end.

(** Lines 40-60: [num_tries = 0], [exception] unbound. *)
Definition openai_method_retry : M A :=
  retry_loop (Z.to_nat max_num_tries) 0 None.

(** The events of one caught retryable error at try [k] (lines 55-57). *)
Definition retry_events (k : Z) (e : exc) : list event :=
  [EvLog INFO (LogOpenaiError e); EvLog INFO (LogTry k sleep_sec);
   EvSleep sleep_sec].

(** ** Unfolding one iteration *)

Lemma retry_loop_success fuel n ex w v w1 :
  n < max_num_tries -> openai_method w = (inr v, w1) ->
  retry_loop (S fuel) n ex w = (inr v, w1).
Proof.
  intros Hn Hm. simpl. rewrite (proj2 (Z.ltb_lt _ _) Hn).
  apply catch_inr. exact Hm.
Qed.

Lemma retry_loop_fatal fuel n ex w e w1 :
  n < max_num_tries -> openai_method w = (inl e, w1) -> is_retryable e = false ->
  retry_loop (S fuel) n ex w = (inl e, w1).
Proof.
  intros Hn Hm He. simpl. rewrite (proj2 (Z.ltb_lt _ _) Hn).
  rewrite (catch_inl _ _ _ _ _ Hm), He. reflexivity.
Qed.

Lemma retry_loop_transient fuel n ex w e w1 :
  n < max_num_tries -> openai_method w = (inl e, w1) -> is_retryable e = true ->
  Qle_bool 0 sleep_sec = true ->
  retry_loop (S fuel) n ex w
  = retry_loop fuel (n + 1) (Some e) (add_events (retry_events (n + 1) e) w1).
Proof.
  intros Hn Hm He Hs. simpl. rewrite (proj2 (Z.ltb_lt _ _) Hn).
  rewrite (catch_inl _ _ _ _ _ Hm), He. unfold log.
  rewrite !(bind_inr _ _ _ _ _ (emit_run _ _)).
  rewrite (bind_inr _ _ _ _ _ (time_sleep_run _ _ Hs)).
  rewrite !add_events_app. reflexivity.
Qed.

Lemma retry_loop_stop fuel n ex :
  max_num_tries <= n -> retry_loop fuel n ex = retry_exhausted ex.
Proof.
  intros Hn. destruct fuel; [reflexivity|]. simpl.
  rewrite (proj2 (Z.ltb_ge _ _) Hn). reflexivity.
Qed.

(** ** Termination: the fuel never runs out *)

(** C13: the [while] loop performs at most [max_num_tries - num_tries]
    iterations.  Any fuel at least that bound gives the same action, so
    the model with fuel [Z.to_nat max_num_tries] is the loop itself. *)
Theorem retry_loop_fuel_irrelevant fuel1 fuel2 n ex :
  (Z.to_nat (max_num_tries - n) <= fuel1)%nat ->
  (Z.to_nat (max_num_tries - n) <= fuel2)%nat ->
  retry_loop fuel1 n ex =m= retry_loop fuel2 n ex.
Proof.
  revert fuel2 n ex.
  induction fuel1 as [|f1 IH]; intros [|f2] n ex H1 H2.
  - reflexivity.
  - rewrite (retry_loop_stop (S f2)) by lia. reflexivity.
  - rewrite (retry_loop_stop (S f1)) by lia. reflexivity.
  - simpl. destruct (Z.ltb_spec n max_num_tries); [|reflexivity].
    apply catch_proper; [reflexivity|]. intros e.
    destruct (is_retryable e); [|reflexivity].
    do 3 (apply bind_proper; [reflexivity|]; intros ?).
    apply IH; lia.
Qed.
End Retry.

Arguments retry_events : clear implicits.

(** The loop only appends its calls, log records and sleeps. *)
Lemma appends_retry_loop (P : event -> Prop) r max_num_tries sleep_sec fuel n ex :
  P (EvCall r) -> (forall lvl m, P (EvLog lvl m)) -> (forall secs, P (EvSleep secs)) ->
  appends P (retry_loop (completion_create r) max_num_tries sleep_sec fuel n ex).
Proof.
  intros Hc Hl Hs. revert n ex.
  induction fuel as [|fuel IH]; intros n ex; simpl;
    [|destruct (n <? max_num_tries)%Z; [apply appends_catch; [auto with lmc_trace|intros e;
      destruct (is_retryable e)]|]];
    try (destruct ex; unfold retry_exhausted); eauto 7 with lmc_trace.
Qed.

(** ** Which calls a retried request makes

    [calls_within r lo hi m]: from any world, [m] keeps the endpoint,
    makes between [lo] and [hi] remote calls, all with the request [r],
    and never advances the progress bar. *)

Section Calls.
Variable r : request.

Definition calls_shape (k : nat) (w w' : world) : Prop :=
  w_endpoint w' = w_endpoint w /\
  exists t, w_trace w' = w_trace w ++ t /\ calls_of t = repeat r k /\ progress_of t = [].

Definition calls_within (lo hi : nat) {A} (m : M A) : Prop :=
  forall w, exists k, (lo <= k <= hi)%nat /\ calls_shape k w (snd (m w)).

Lemma calls_shape_trans k1 k2 w w1 w2 :
  calls_shape k1 w w1 -> calls_shape k2 w1 w2 -> calls_shape (k1 + k2) w w2.
Proof.
  intros [E1 (t1 & T1 & C1 & P1)] [E2 (t2 & T2 & C2 & P2)]. split; [congruence|].
  exists (t1 ++ t2). rewrite T2, T1, app_assoc, calls_of_app, progress_of_app, C1, C2, P1, P2.
  rewrite repeat_app. auto.
Qed.

Lemma calls_within_silent lo hi {A} (m : M A) :
  lo = 0%nat -> appends silent m -> calls_within lo hi m.
Proof.
  intros -> Hm w. exists 0%nat. split; [lia|]. destruct (Hm w) as [E (t & T & F)].
  destruct (silent_trace t F) as [C P]. split; [exact E|]. exists t. auto.
Qed.

Lemma calls_within_bind lo hi lo1 hi1 lo2 hi2 {A B} (m : M A) (k : A -> M B) :
  calls_within lo1 hi1 m -> (forall a, calls_within lo2 hi2 (k a)) ->
  (lo <= lo1)%nat -> (hi1 + hi2 <= hi)%nat -> calls_within lo hi (bind m k).
Proof.
  intros Hm Hk Hlo Hhi w. unfold bind. destruct (Hm w) as (k1 & B1 & S1).
  destruct (m w) as [[e|a] w1].
  - exists k1. split; [lia|exact S1].
  - destruct (Hk a w1) as (k2 & B2 & S2). exists (k1 + k2)%nat.
    split; [lia|exact (calls_shape_trans _ _ _ _ _ S1 S2)].
Qed.

Lemma calls_within_catch lo hi lo1 hi1 lo2 hi2 {A} (m : M A) (h : exc -> M A) :
  calls_within lo1 hi1 m -> (forall e, calls_within lo2 hi2 (h e)) ->
  (lo <= lo1)%nat -> (hi1 + hi2 <= hi)%nat -> calls_within lo hi (catch m h).
Proof.
  intros Hm Hh Hlo Hhi w. unfold catch. destruct (Hm w) as (k1 & B1 & S1).
  destruct (m w) as [[e|a] w1].
  - destruct (Hh e w1) as (k2 & B2 & S2). exists (k1 + k2)%nat.
    split; [lia|exact (calls_shape_trans _ _ _ _ _ S1 S2)].
  - exists k1. split; [lia|exact S1].
Qed.

Lemma calls_within_silent_bind hi {A B} (m : M A) (k : A -> M B) :
  appends silent m -> (forall a, calls_within 0 hi (k a)) -> calls_within 0 hi (bind m k).
Proof.
  intros Hm Hk. apply (calls_within_bind 0 hi 0 0 0 hi); [|exact Hk|lia|lia].
  apply calls_within_silent; auto.
Qed.

Lemma calls_within_call : calls_within 1 1 (completion_create r).
Proof.
  intros w. exists 1%nat. split; [lia|]. rewrite completion_create_run.
  split; [reflexivity|]. exists [EvCall r]. auto.
Qed.

Lemma appends_silent_retry_exhausted {A} ex : appends silent (@retry_exhausted A ex).
Proof. destruct ex; unfold retry_exhausted; auto with lmc_trace. Qed.

(** The loop at try [n] with [fuel] iterations left makes at most [fuel]
    calls, and at least one if its [while] test passes. *)
Lemma retry_loop_calls max_num_tries sleep_sec fuel n ex :
  calls_within (if n <? max_num_tries then Nat.min 1 fuel else 0) (Z.to_nat (max_num_tries - n))
    (retry_loop (completion_create r) max_num_tries sleep_sec fuel n ex).
Proof.
  revert n ex. induction fuel as [|fuel IH]; intros n ex; simpl retry_loop.
  - apply calls_within_silent; [destruct (n <? max_num_tries); reflexivity|].
    apply appends_silent_retry_exhausted.
  - destruct (Z.ltb_spec n max_num_tries) as [Hn|Hn].
    + apply (calls_within_catch 1 (Z.to_nat (max_num_tries - n)) 1 1 0
               (Z.to_nat (max_num_tries - (n + 1)))); [apply calls_within_call| |lia|lia].
      intros e. destruct (is_retryable e); [|apply calls_within_silent; auto with lmc_trace].
      unfold log. do 3 (apply calls_within_silent_bind; [auto with lmc_trace|intros _]).
      intros w. destruct (IH (n + 1) (Some e) w) as (k & Hk & Hs). exists k. split; [lia|exact Hs].
    + apply calls_within_silent; [reflexivity|]. apply appends_silent_retry_exhausted.
Qed.

(** How a run of the loop ended, counted in calls that are not followed
    by a sleep: a success, or an error the loop does not retry, ends on
    such a call; a retryable error re-raised after the last try does
    not. *)
Definition settled {A} (res : exc + A) : nat :=
  match res with
  | inr _ => 1
  | inl e => if is_retryable e then 0 else 1
  end.

Lemma retry_exhausted_some {A} e w :
  @retry_exhausted A (Some e) w = (inl e, add_events [EvLog ERROR (LogMaxRetries e)] w).
Proof. reflexivity. Qed.

(** Every call of the loop is followed by a sleep, except the one the run
    [settled] on.  The local [exception], once bound, holds a retryable
    error; before that the loop has a try left. *)
Lemma retry_loop_balance max_num_tries sleep_sec fuel n ex w :
  match ex with
  | Some e => is_retryable e = true
  | None => (n < max_num_tries)%Z /\ (0 < fuel)%nat
  end ->
  exists t,
    w_trace (snd (retry_loop (completion_create r) max_num_tries sleep_sec fuel n ex w))
    = w_trace w ++ t /\
    count_if is_call t
    = (count_if is_sleep t
       + settled (fst (retry_loop (completion_create r) max_num_tries sleep_sec fuel n ex w)))%nat.
Proof.
  revert n ex w. induction fuel as [|fuel IH]; intros n ex w Hpre.
  - destruct ex as [e|]; [|lia]. cbn [retry_loop]. rewrite retry_exhausted_some.
    exists [EvLog ERROR (LogMaxRetries e)]. simpl. rewrite Hpre. auto.
  - cbn [retry_loop]. destruct (Z.ltb_spec n max_num_tries) as [Hn|Hn].
    + unfold catch. rewrite completion_create_run.
      destruct (w_endpoint w (w_calls w) r) as [e|v]; [|exists [EvCall r]; auto].
      destruct (is_retryable e) eqn:Hr; [|exists [EvCall r]; simpl; rewrite Hr; auto].
      unfold log. rewrite !(bind_inr _ _ _ _ _ (emit_run _ _)).
      destruct (Qle_bool 0 sleep_sec) eqn:Hs.
      * rewrite (bind_inr _ _ _ _ _ (time_sleep_run _ _ Hs)).
        edestruct (IH (n + 1)%Z (Some e)) as (t & T & B); [exact Hr|]. rewrite T.
        exists (EvCall r :: retry_events sleep_sec (n + 1) e ++ t). split.
        -- unfold add_events, call_world. simpl. rewrite <- !app_assoc. reflexivity.
        -- unfold count_if in *. cbn [retry_events app filter length is_call is_sleep]. lia.
      * unfold time_sleep. rewrite Hs. cbn.
        exists [EvCall r; EvLog INFO (LogOpenaiError e); EvLog INFO (LogTry (n + 1) sleep_sec)].
        unfold add_event. cbn. rewrite <- !app_assoc. auto.
    + destruct ex as [e|]; [|lia]. rewrite retry_exhausted_some.
      exists [EvLog ERROR (LogMaxRetries e)]. simpl. rewrite Hpre. auto.
Qed.

Lemma retry_exhausted_inl {A} ex w : exists e, fst (@retry_exhausted A ex w) = inl e.
Proof. destruct ex as [e|]; [exists e|eexists]; reflexivity. Qed.

(** A loop that returns has returned the answer of its last call. *)
Lemma retry_loop_answer max_num_tries sleep_sec fuel n ex w v w' :
  retry_loop (completion_create r) max_num_tries sleep_sec fuel n ex w = (inr v, w') ->
  exists i, (w_calls w <= i)%nat /\ w_calls w' = S i /\
    w_endpoint w i r = inr v /\ w_endpoint w' = w_endpoint w.
Proof.
  revert n ex w. induction fuel as [|fuel IH]; intros n ex w Hrun; cbn [retry_loop] in Hrun.
  - destruct (retry_exhausted_inl (A := response) ex w) as [e He]. rewrite Hrun in He. discriminate.
  - destruct (n <? max_num_tries);
      [|destruct (retry_exhausted_inl (A := response) ex w) as [e He]; rewrite Hrun in He; discriminate].
    unfold catch in Hrun. rewrite completion_create_run in Hrun.
    destruct (w_endpoint w (w_calls w) r) as [e|v0] eqn:He.
    + destruct (is_retryable e); [|discriminate].
      unfold log in Hrun. rewrite !(bind_inr _ _ _ _ _ (emit_run _ _)) in Hrun.
      destruct (Qle_bool 0 sleep_sec) eqn:Hs; [|unfold time_sleep in Hrun; rewrite Hs in Hrun; discriminate].
      rewrite (bind_inr _ _ _ _ _ (time_sleep_run _ _ Hs)) in Hrun.
      destruct (IH _ _ _ Hrun) as (i & Hi & Hc & Hv & Hep). exists i. cbn in *. auto with arith.
    + injection Hrun as <- <-. exists (w_calls w). auto.
Qed.
End Calls.

(** The defaults of the signature (line 40). *)
Definition default_max_num_tries : Z := 5.
Definition default_sleep_sec : Q := 10.

(** ** The retry wrapper around [openai.Completion.create] *)

Section RetryRemote.
Variable r : request.
Variable max_num_tries : Z.
Variable sleep_sec : Q.

(** The events of a run of caught retryable errors [es], tries
    [k+1, k+2, ...]: each is a call, two log records and a sleep. *)
Fixpoint fails_trace (k : Z) (es : list exc) : list event :=
  match es with
  | [] => []
  | e :: es' =>
      EvCall r :: retry_events sleep_sec (k + 1) e ++ fails_trace (k + 1) es'
  end.

(** The endpoint answers the next [length es] calls with the retryable
    errors [es], in order. *)
Definition fails_with (w : world) (es : list exc) : Prop :=
  forall j e, nth_error es j = Some e ->
    w_endpoint w (w_calls w + j) r = inl e /\ is_retryable e = true.

Definition last_exc (es : list exc) (ex : option exc) : option exc :=
  fold_left (fun _ e => Some e) es ex.

Lemma fails_trace_sleeps k es :
  count_if is_sleep (fails_trace k es) = length es.
Proof.
  revert k. induction es as [|e es IH]; intros k; [reflexivity|].
  simpl. unfold count_if in *. simpl. rewrite IH. reflexivity.
Qed.

(** A run of retryable errors, all within the try budget, unrolls into
    its trace: the loop resumes after [length es] tries. *)
Lemma retry_loop_fails es fuel n ex w :
  fails_with w es ->
  n + Z.of_nat (length es) <= max_num_tries ->
  (length es <= fuel)%nat -> Qle_bool 0 sleep_sec = true ->
  retry_loop (completion_create r) max_num_tries sleep_sec fuel n ex w
  = retry_loop (completion_create r) max_num_tries sleep_sec
      (fuel - length es) (n + Z.of_nat (length es)) (last_exc es ex)
      (mk_world (w_endpoint w) (w_calls w + length es) (w_stdin w)
                (w_trace w ++ fails_trace n es)).
Proof.
  revert fuel n ex w. induction es as [|e es IH]; intros fuel n ex w Hf Hn Hfuel Hs.
  - simpl. rewrite Z.add_0_r, Nat.sub_0_r, Nat.add_0_r, app_nil_r.
    destruct w; reflexivity.
  - destruct fuel as [|fuel]; [simpl in Hfuel; lia|].
    destruct (Hf 0%nat e eq_refl) as [He Hr]. rewrite Nat.add_0_r in He.
    simpl length in *.
    rewrite (retry_loop_transient (completion_create r) max_num_tries sleep_sec
               fuel n ex w e (call_world r w)); try lia;
      [| rewrite completion_create_run, He; reflexivity | exact Hr | exact Hs].
    rewrite IH; [| | lia | lia | exact Hs].
    + unfold last_exc. cbn [fold_left].
      change (S fuel - S (length es))%nat with (fuel - length es)%nat.
      replace (n + Z.of_nat (S (length es))) with (n + 1 + Z.of_nat (length es)) by lia.
      replace (w_calls w + S (length es))%nat with (S (w_calls w + length es)) by lia.
      unfold add_events, call_world. cbn [w_endpoint w_calls w_stdin w_trace fails_trace].
      rewrite <- !app_assoc. reflexivity.
    + intros j e' Hj. simpl.
      replace (S (w_calls w + j)) with (w_calls w + S j)%nat by lia.
      apply Hf. exact Hj.
Qed.
End RetryRemote.

Section RetryTheorems.
Variable r : request.
Variable max_num_tries : Z.
Variable sleep_sec : Q.

#[local] Abbreviation retry := (openai_method_retry (completion_create r) max_num_tries sleep_sec).

(** The world after the failure run [es] followed by the events [evs]. *)
Definition after_fails (w : world) (es : list exc) (extra_calls : nat)
           (evs : list event) : world :=
  mk_world (w_endpoint w) (w_calls w + length es + extra_calls) (w_stdin w)
           (w_trace w ++ fails_trace r sleep_sec 0 es ++ evs).

Lemma retry_unroll es w :
  fails_with r w es -> Z.of_nat (length es) <= max_num_tries ->
  Qle_bool 0 sleep_sec = true ->
  retry w
  = retry_loop (completion_create r) max_num_tries sleep_sec
      (Z.to_nat max_num_tries - length es) (Z.of_nat (length es)) (last_exc es None)
      (after_fails w es 0 []).
Proof.
  intros Hf Hn Hs. unfold openai_method_retry.
  rewrite (retry_loop_fails r max_num_tries sleep_sec es); [|exact Hf|lia|lia|exact Hs].
  unfold after_fails. rewrite Nat.add_0_r, app_nil_r. reflexivity.
Qed.

Lemma completion_create_after_fails w es :
  completion_create r (after_fails w es 0 [])
  = (w_endpoint w (w_calls w + length es) r, after_fails w es 1 [EvCall r]).
Proof.
  rewrite completion_create_run. unfold after_fails, call_world. cbn.
  rewrite Nat.add_0_r, app_nil_r, <- app_assoc.
  f_equal. f_equal. lia.
Qed.

Lemma retry_success es v w :
  fails_with r w es ->
  w_endpoint w (w_calls w + length es) r = inr v ->
  Z.of_nat (length es) < max_num_tries ->
  Qle_bool 0 sleep_sec = true ->
  retry w = (inr v, after_fails w es 1 [EvCall r]).
Proof.
  intros Hf Hv Hn Hs. rewrite (retry_unroll es w) by (auto; lia).
  destruct (Z.to_nat max_num_tries - length es)%nat eqn:Hfuel; [lia|].
  apply retry_loop_success; [lia|].
  rewrite completion_create_after_fails, Hv. reflexivity.
Qed.

(** C4: if the endpoint fails with retryable errors [es] and then
    answers [v], and [len(es) < max_num_tries], the wrapper returns [v].
    It has made [len(es) + 1] calls, and its trace is exactly the
    failure run followed by the successful call. *)
Theorem openai_method_retry_success es v w :
  fails_with r w es ->
  w_endpoint w (w_calls w + length es) r = inr v ->
  Z.of_nat (length es) < max_num_tries ->
  Qle_bool 0 sleep_sec = true ->
  retry w = (inr v, after_fails w es 1 [EvCall r]).
Proof. intros; eapply retry_success; eassumption. Qed.

Lemma retry_exhausts es e w :
  fails_with r w (es ++ [e]) ->
  Z.of_nat (S (length es)) = max_num_tries ->
  Qle_bool 0 sleep_sec = true ->
  retry w
  = (inl e, after_fails w (es ++ [e]) 0 [EvLog ERROR (LogMaxRetries e)]).
Proof.
  intros Hf Hn Hs.
  rewrite (retry_unroll (es ++ [e]) w) by (auto; rewrite length_app; simpl; lia).
  rewrite retry_loop_stop by (rewrite length_app; simpl; lia).
  unfold last_exc. rewrite fold_left_app. simpl.
  unfold after_fails. rewrite !Nat.add_0_r, app_nil_r.
  cbn. unfold add_event. cbn. rewrite <- app_assoc. reflexivity.
Qed.

(** C5: if every one of the [max_num_tries] tries fails with a
    retryable error, the last one [e] is raised.  Before that, the
    wrapper logs "Max retries exceeded" with it.  The trace holds
    [max_num_tries] calls and [max_num_tries] sleeps, one after each
    failed try, the last one included. *)
Theorem openai_method_retry_exhausted es e w :
  fails_with r w (es ++ [e]) ->
  Z.of_nat (S (length es)) = max_num_tries ->
  Qle_bool 0 sleep_sec = true ->
  retry w
  = (inl e, after_fails w (es ++ [e]) 0 [EvLog ERROR (LogMaxRetries e)]).
Proof. intros; eapply retry_exhausts; eassumption. Qed.

(** C7: a non-retryable error [e] is raised at once.  It is not logged
    and not followed by a sleep, whatever retryable failures came
    before it. *)
Theorem openai_method_retry_fatal es e w :
  fails_with r w es ->
  w_endpoint w (w_calls w + length es) r = inl e ->
  is_retryable e = false ->
  Z.of_nat (length es) < max_num_tries ->
  Qle_bool 0 sleep_sec = true ->
  retry w = (inl e, after_fails w es 1 [EvCall r]).
Proof.
  intros Hf He Hnr Hn Hs. rewrite (retry_unroll es w) by (auto; lia).
  destruct (Z.to_nat max_num_tries - length es)%nat eqn:Hfuel; [lia|].
  apply retry_loop_fatal; [lia| |exact Hnr].
  rewrite completion_create_after_fails, He. reflexivity.
Qed.
End RetryTheorems.

(** C14: with [max_num_tries <= 0] the loop body never runs, and line 59
    reads the unassigned [exception].  The wrapper raises
    [UnboundLocalError] without calling the method. *)
Theorem openai_method_retry_nonpositive {A} (op : M A) max_num_tries sleep_sec w :
  max_num_tries <= 0 ->
  openai_method_retry op max_num_tries sleep_sec w
  = (inl (UnboundLocalError "exception"), w).
Proof.
  intros H. unfold openai_method_retry.
  rewrite retry_loop_stop by lia. reflexivity.
Qed.

(** C15: a negative [sleep_sec] makes the first caught error end the
    wrapper with the [ValueError] of [time.sleep].  The error is raised
    after one call and the two log records, with no retry. *)
Theorem openai_method_retry_negative_sleep r max_num_tries sleep_sec e w :
  0 < max_num_tries -> Qle_bool 0 sleep_sec = false ->
  w_endpoint w (w_calls w) r = inl e -> is_retryable e = true ->
  openai_method_retry (completion_create r) max_num_tries sleep_sec w
  = (inl (ValueError "sleep length must be non-negative"),
     add_events [EvLog INFO (LogOpenaiError e); EvLog INFO (LogTry 1 sleep_sec)]
                (call_world r w)).
Proof.
  intros Hmax Hs He Hr. unfold openai_method_retry.
  destruct (Z.to_nat max_num_tries) eqn:Hf; [lia|]. simpl retry_loop.
  rewrite (proj2 (Z.ltb_lt _ _) Hmax).
  rewrite (catch_inl (completion_create r) _ w e (call_world r w))
    by (rewrite completion_create_run, He; reflexivity).
  rewrite Hr. unfold log. rewrite !(bind_inr _ _ _ _ _ (emit_run _ _)).
  unfold time_sleep. rewrite Hs, add_events_app. reflexivity.
Qed.

(** ** The state machine of the spec (section 4.2) *)

(** C23: for any endpoint and any number of iterations the model's fuel
    allows, the loop started with [num_tries = 0] and a positive budget
    makes at least one and at most [max_num_tries] remote calls, all with
    [r].  It sleeps at most once per call, keeps the endpoint and never
    advances the progress bar.  The bound comes from the counter
    [num_tries], not from the fuel. *)
Theorem retry_loop_calls_bounded r max_num_tries sleep_sec fuel w :
  0 < max_num_tries -> (0 < fuel)%nat ->
  exists k t, (1 <= k <= Z.to_nat max_num_tries)%nat /\
    w_endpoint (snd (retry_loop (completion_create r) max_num_tries sleep_sec fuel 0 None w))
    = w_endpoint w /\
    w_trace (snd (retry_loop (completion_create r) max_num_tries sleep_sec fuel 0 None w))
    = w_trace w ++ t /\
    calls_of t = repeat r k /\ progress_of t = [] /\ (count_if is_sleep t <= k)%nat.
Proof.
  intros Hmax Hfuel.
  destruct (retry_loop_calls r max_num_tries sleep_sec fuel 0 None w)
    as (k & Hk & E & t & T & C & P).
  destruct (retry_loop_balance r max_num_tries sleep_sec fuel 0 None w (conj Hmax Hfuel))
    as (t' & T' & B).
  rewrite T in T'. apply app_inv_head in T'. subst t'.
  rewrite (proj2 (Z.ltb_lt _ _) Hmax), Z.sub_0_r in Hk.
  assert (Hc : count_if is_call t = k)
    by (unfold count_if; rewrite <- (repeat_length r k), <- C; clear;
        induction t as [|[] t IH]; simpl; auto).
  exists k, t. repeat split; auto; lia.
Qed.

Module RetrySpec.
Section Machine.
Context {A : Type}.
(** The attempt budget, and the outcome of attempt [k] (from 0). *)
Variable max_attempts : nat.
Variable outcome : nat -> exc + A.

(** [Attempting k] and [Sleeping k e]: [k] attempts have been made. *)
Inductive rstate : Type :=
| Attempting (k : nat)
| Sleeping (k : nat) (e : exc)
| Succeeded (v : A)
| Exhausted (e : exc).

Inductive rstep : rstate -> rstate -> Prop :=
| rs_success k v :
    outcome k = inr v -> rstep (Attempting k) (Succeeded v)
| rs_retry k e :
    outcome k = inl e -> is_retryable e = true -> (S k < max_attempts)%nat ->
    rstep (Attempting k) (Sleeping (S k) e)
| rs_wake k e :
    rstep (Sleeping k e) (Attempting k)
| rs_exhaust k e :
    outcome k = inl e -> is_retryable e = true -> (max_attempts <= S k)%nat ->
    rstep (Attempting k) (Exhausted e)
| rs_fatal k e :
    outcome k = inl e -> is_retryable e = false ->
    rstep (Attempting k) (Exhausted e).

Definition sleeps_of (s : rstate) : nat :=
  match s with Sleeping _ _ => 1 | _ => 0 end.

(** Runs of the machine, counting the sleeps (the steps out of
    [Sleeping]). *)
Inductive rsteps : rstate -> nat -> rstate -> Prop :=
| rsteps_refl s : rsteps s 0 s
| rsteps_cons s s' n s'' :
    rstep s s' -> rsteps s' n s'' -> rsteps s (sleeps_of s + n) s''.

Lemma rsteps_step s s' n s'' m :
  rstep s s' -> rsteps s' n s'' -> m = (sleeps_of s + n)%nat -> rsteps s m s''.
Proof. intros H1 H2 ->. exact (rsteps_cons _ _ _ _ H1 H2). Qed.

Definition terminal (s : rstate) : bool :=
  match s with Succeeded _ | Exhausted _ => true | _ => false end.

Definition result_of (s : rstate) : exc + A :=
  match s with
  | Succeeded v => inr v
  | Exhausted e => inl e
  | _ => inl (UnboundLocalError "state")
  end.

Lemma rstep_terminal s s' : rstep s s' -> terminal s = false.
Proof. intros H. destruct H; reflexivity. Qed.

Lemma rstep_deterministic s s1 s2 : rstep s s1 -> rstep s s2 -> s1 = s2.
Proof.
  intros H1 H2. destruct H1; inversion H2; subst; congruence || lia.
Qed.

(** Runs to a terminal state are unique: the machine is deterministic. *)
Lemma rsteps_terminal_unique s n1 s1 n2 s2 :
  rsteps s n1 s1 -> terminal s1 = true ->
  rsteps s n2 s2 -> terminal s2 = true -> n1 = n2 /\ s1 = s2.
Proof.
  intros H1. revert n2 s2. induction H1 as [s|s s' n s'' Hst Hrest IH];
    intros n2 s2 T1 H2 T2.
  - inversion H2 as [|? ? ? ? Hst']; subst; [auto|].
    apply rstep_terminal in Hst'. congruence.
  - inversion H2 as [|? s'2 n2' ? Hst2 Hrest2]; subst.
    + apply rstep_terminal in Hst. congruence.
    + rewrite (rstep_deterministic _ _ _ Hst2 Hst) in Hrest2.
      destruct (IH _ _ T1 Hrest2 T2) as [-> ->]. auto.
Qed.

(** The sleeps still possible from a state. *)
Definition budget (s : rstate) : nat :=
  match s with
  | Attempting k => max_attempts - S k
  | Sleeping k _ => max_attempts - k
  | _ => 0
  end.

Definition in_budget (s : rstate) : Prop :=
  match s with
  | Attempting k => (k < max_attempts)%nat
  | Sleeping k _ => (1 <= k < max_attempts)%nat
  | _ => True
  end.

Lemma rstep_budget s s' :
  rstep s s' -> in_budget s -> in_budget s' /\ (sleeps_of s + budget s' <= budget s)%nat.
Proof. intros H. destruct H; simpl; lia. Qed.

(** By rule induction, a run from any state within the budget
    sleeps at most as many times as the budget left.  From
    [Attempting 0] that is [max_attempts - 1] sleeps. *)
Theorem rsteps_sleeps_bounded s n s' :
  rsteps s n s' -> in_budget s -> (n <= budget s)%nat.
Proof.
  induction 1 as [s|s s' n s'' Hst Hrest IH]; intros Hin; [lia|].
  destruct (rstep_budget _ _ Hst Hin) as [Hin' Hb].
  specialize (IH Hin'). lia.
Qed.
End Machine.

Arguments Attempting {A} k.
Arguments Sleeping {A} k e.
Arguments Succeeded {A} v.
Arguments Exhausted {A} e.
End RetrySpec.

(** ** The code refines the machine *)

Section Refinement.
Import RetrySpec.
Variable r : request.
Variable max_attempts : nat.
Variable sleep_sec : Q.

(** The outcomes the endpoint gives to the attempts made from [w]. *)
Definition endpoint_outcomes (w : world) (k : nat) : exc + response :=
  w_endpoint w (w_calls w + k) r.

(** The code sleeps once more than the machine when the tries run out
    on a retryable error: [time.sleep] runs before the [while] test. *)
Definition extra_sleep (s : rstate (A:=response)) : nat :=
  match s with
  | Exhausted e => if is_retryable e then 1 else 0
  | _ => 0
  end.

Definition refines_from (w0 : world) (k : nat) (run : M response) (w : world) : Prop :=
  exists s n t,
    rsteps max_attempts (endpoint_outcomes w0) (Attempting k) n s /\
    terminal s = true /\
    fst (run w) = result_of s /\
    w_trace (snd (run w)) = w_trace w ++ t /\
    count_if is_sleep t = (n + extra_sleep s)%nat.

Lemma retry_loop_refines f k ex w0 w :
  (k + f = max_attempts)%nat -> (k < max_attempts)%nat ->
  w_endpoint w = w_endpoint w0 -> w_calls w = (w_calls w0 + k)%nat ->
  Qle_bool 0 sleep_sec = true ->
  refines_from w0 k
    (retry_loop (completion_create r) (Z.of_nat max_attempts) sleep_sec f (Z.of_nat k) ex) w.
Proof.
  revert k ex w. induction f as [|f IH]; intros k ex w Hkf Hk Hep Hc Hs; [lia|].
  unfold refines_from.
  assert (Hout : w_endpoint w (w_calls w) r = endpoint_outcomes w0 k)
    by (unfold endpoint_outcomes; rewrite Hep, Hc; reflexivity).
  assert (Hlt : Z.of_nat k < Z.of_nat max_attempts) by lia.
  destruct (endpoint_outcomes w0 k) as [e|v] eqn:E.
  - destruct (is_retryable e) eqn:R.
    + rewrite (retry_loop_transient _ _ _ _ _ _ _ _ (call_world r w) Hlt)
        by (rewrite ?completion_create_run, ?Hout; auto).
      replace (Z.of_nat k + 1)%Z with (Z.of_nat (S k)) by lia.
      destruct f as [|f].
      * exists (Exhausted e), 0%nat,
          (EvCall r :: retry_events sleep_sec (Z.of_nat (S k)) e
             ++ [EvLog ERROR (LogMaxRetries e)]).
        split; [eapply rsteps_step; [apply (rs_exhaust _ _ k e); auto; lia | apply rsteps_refl | reflexivity]|].
        split; [reflexivity|]. split; [reflexivity|].
        split; [cbn; rewrite <- !app_assoc; reflexivity|].
        unfold extra_sleep. rewrite R. reflexivity.
      * destruct (IH (S k) (Some e) (add_events (retry_events sleep_sec (Z.of_nat (S k)) e)
                     (call_world r w))) as (s & n & t & Hrun & Ht & Hres & Htr & Hsl);
          [lia | lia | exact Hep | cbn; lia | exact Hs |].
        exists s, (S n), (EvCall r :: retry_events sleep_sec (Z.of_nat (S k)) e ++ t).
        split; [|split; [exact Ht|split; [exact Hres|split]]].
        -- eapply rsteps_step; [apply (rs_retry _ _ k e); auto; lia | | reflexivity].
           eapply rsteps_step; [apply rs_wake | exact Hrun | reflexivity].
        -- rewrite Htr. cbn. rewrite <- !app_assoc. reflexivity.
        -- unfold count_if in *. cbn. rewrite Hsl. lia.
    + exists (Exhausted e), 0%nat, [EvCall r].
      rewrite (retry_loop_fatal _ _ _ _ _ _ _ e (call_world r w) Hlt)
        by (rewrite ?completion_create_run, ?Hout; auto).
      split; [eapply rsteps_step; [apply (rs_fatal _ _ k e); auto | apply rsteps_refl | reflexivity]|].
      repeat split. unfold extra_sleep. rewrite R. reflexivity.
  - exists (Succeeded v), 0%nat, [EvCall r].
    rewrite (retry_loop_success _ _ _ _ _ _ _ v (call_world r w) Hlt)
      by (rewrite completion_create_run, Hout; reflexivity).
    split; [eapply rsteps_step; [apply (rs_success _ _ k v); auto | apply rsteps_refl | reflexivity]|].
    repeat split.
Qed.

(** C6: [openai_method_retry] refines the retry machine of the spec.
    With a budget of at least one try, the wrapper's outcome is the
    outcome of the unique terminal state the machine reaches from
    [Attempting 0] on the endpoint's answers.  The code's trace holds
    the machine's sleeps plus [extra_sleep]: one more sleep when the
    tries run out on a retryable error. *)
Theorem openai_method_retry_refines w :
  (1 <= max_attempts)%nat -> Qle_bool 0 sleep_sec = true ->
  refines_from w 0
    (openai_method_retry (completion_create r) (Z.of_nat max_attempts) sleep_sec) w.
Proof.
  intros Hm Hs. unfold openai_method_retry. rewrite Nat2Z.id.
  apply (retry_loop_refines max_attempts 0 None w w); auto; lia.
Qed.
End Refinement.

(** ** Witnesses on a scripted endpoint *)

Definition ex_request : request := mk_request ["a"%string] "text-ada-001" 0 [].

(** Rate-limited for the first [fails] calls, then an answer, or a fatal
    error when [fatal] is set. *)
Definition scripted_endpoint (fails : nat) (fatal : bool) : nat -> request -> exc + response :=
  fun i _ => if (i <? fails)%nat then inl (RateLimitError "busy")
             else if fatal then inl (OpenAIError "bad request") else inr (mk_response []).

Definition fresh_world (ep : nat -> request -> exc + response) : world := mk_world ep 0 [] [].

Lemma fails_with_scripted n fatal :
  fails_with ex_request (fresh_world (scripted_endpoint n fatal)) (repeat (RateLimitError "busy") n).
Proof.
  intros j e Hj. pose proof (nth_error_In _ _ Hj) as Hin. apply repeat_spec in Hin. subst e.
  assert (Hlt : (j < length (repeat (RateLimitError "busy") n))%nat)
    by (apply nth_error_Some; congruence).
  rewrite repeat_length in Hlt.
  unfold scripted_endpoint. simpl. destruct (Nat.ltb_spec j n); [auto | lia].
Qed.

Lemma openai_method_retry_success_witness :
  let w := fresh_world (scripted_endpoint 2 false) in
  let es := repeat (RateLimitError "busy") 2 in
  openai_method_retry (completion_create ex_request) 5 10 w
  = (inr (mk_response []), after_fails ex_request 10 w es 1 [EvCall ex_request]).
Proof.
  apply (openai_method_retry_success ex_request 5 10 _ (mk_response []) _
           (fails_with_scripted 2 false)); reflexivity.
Defined.

Lemma openai_method_retry_exhausted_witness :
  let w := fresh_world (scripted_endpoint 5 false) in
  openai_method_retry (completion_create ex_request) 5 10 w
  = (inl (RateLimitError "busy"),
     after_fails ex_request 10 w (repeat (RateLimitError "busy") 4 ++ [RateLimitError "busy"]) 0
       [EvLog ERROR (LogMaxRetries (RateLimitError "busy"))]).
Proof.
  apply (openai_method_retry_exhausted ex_request 5 10 (repeat (RateLimitError "busy") 4)
           (RateLimitError "busy") _ (fails_with_scripted 5 false)); reflexivity.
Defined.

Lemma openai_method_retry_fatal_witness :
  let w := fresh_world (scripted_endpoint 1 true) in
  openai_method_retry (completion_create ex_request) 5 10 w
  = (inl (OpenAIError "bad request"),
     after_fails ex_request 10 w (repeat (RateLimitError "busy") 1) 1 [EvCall ex_request]).
Proof.
  apply (openai_method_retry_fatal ex_request 5 10 _ (OpenAIError "bad request") _
           (fails_with_scripted 1 true)); reflexivity.
Defined.

Lemma openai_method_retry_nonpositive_witness :
  (0 <= 0)%Z /\
  openai_method_retry (completion_create ex_request) 0 10 (fresh_world (scripted_endpoint 0 false))
  = (inl (UnboundLocalError "exception"), fresh_world (scripted_endpoint 0 false)).
Proof. split; [lia | apply openai_method_retry_nonpositive; lia]. Defined.

Lemma openai_method_retry_negative_sleep_witness :
  let w := fresh_world (scripted_endpoint 1 false) in
  openai_method_retry (completion_create ex_request) 5 (-1) w
  = (inl (ValueError "sleep length must be non-negative"),
     add_events [EvLog INFO (LogOpenaiError (RateLimitError "busy"));
                 EvLog INFO (LogTry 1 (-1))] (call_world ex_request w)).
Proof. apply openai_method_retry_negative_sleep; reflexivity. Defined.

Lemma retry_loop_fuel_irrelevant_witness :
  (Z.to_nat (5 - 0) <= 5)%nat /\ (Z.to_nat (5 - 0) <= 9)%nat /\
  retry_loop (completion_create ex_request) 5 10 5 0 None
  =m= retry_loop (completion_create ex_request) 5 10 9 0 None.
Proof.
  split; [simpl; lia|]. split; [simpl; lia|].
  apply retry_loop_fuel_irrelevant; simpl; lia.
Defined.

Lemma openai_method_retry_refines_witness :
  (1 <= 3)%nat /\ Qle_bool 0 10 = true /\
  refines_from ex_request 3 (fresh_world (scripted_endpoint 2 false)) 0
    (openai_method_retry (completion_create ex_request) (Z.of_nat 3) 10)
    (fresh_world (scripted_endpoint 2 false)).
Proof.
  split; [lia|]. split; [reflexivity|].
  apply openai_method_retry_refines; [lia | reflexivity].
Defined.

(** A run of the machine with one retry: one sleep, within the budget. *)
Example machine_run_sleeps_once :
  let outcome := fun k : nat => if (k =? 0)%nat then @inl exc nat (RateLimitError "busy") else inr 7%nat in
  RetrySpec.rsteps 2 outcome (RetrySpec.Attempting 0) 1 (RetrySpec.Succeeded 7%nat) /\
  RetrySpec.in_budget 2 (RetrySpec.Attempting (A:=nat) 0) /\
  (1 <= RetrySpec.budget 2 (RetrySpec.Attempting (A:=nat) 0))%nat.
Proof.
  intros outcome.
  assert (H : RetrySpec.rsteps 2 outcome (RetrySpec.Attempting 0) 1 (RetrySpec.Succeeded 7%nat)).
  { eapply RetrySpec.rsteps_step; [apply (RetrySpec.rs_retry _ _ 0 (RateLimitError "busy"));
      reflexivity || lia | | reflexivity].
    eapply RetrySpec.rsteps_step; [apply RetrySpec.rs_wake | | reflexivity].
    eapply RetrySpec.rsteps_step; [apply (RetrySpec.rs_success _ _ 1 7%nat); reflexivity
      | apply RetrySpec.rsteps_refl | reflexivity]. }
  split; [exact H|]. split; [simpl; lia|].
  apply (RetrySpec.rsteps_sleeps_bounded _ _ _ _ _ H). simpl. lia.
Qed.

Lemma retry_loop_calls_bounded_witness :
  0 < 5 /\ (0 < 9)%nat /\
  exists k t, (1 <= k <= 5)%nat /\
    w_endpoint (snd (retry_loop (completion_create ex_request) 5 10 9 0 None
                       (fresh_world (scripted_endpoint 2 true))))
    = scripted_endpoint 2 true /\
    w_trace (snd (retry_loop (completion_create ex_request) 5 10 9 0 None
                    (fresh_world (scripted_endpoint 2 true))))
    = [] ++ t /\
    calls_of t = repeat ex_request k /\ progress_of t = [] /\ (count_if is_sleep t <= k)%nat.
Proof.
  split; [lia|]. split; [lia|].
  exact (retry_loop_calls_bounded ex_request 5 10 9 _ ltac:(lia) ltac:(lia)).
Defined.
