(* ===== verification/Batch.v ===== *)
(** * [batch.constant]: cutting a sequence into batches

    [lm_classification/utils/batch.py] is not in [src/].
    [constant] is modelled from the spec (section 4.1) as the generator
    [for i in range(0, len(lst), size): yield lst[i:i + size]], guarded by
    [size <= 0].  The reference [chunks] is defined with Equations by
    well-founded recursion on the length, and the two are proved equal.
    The class [Batcher] is the contract [gpt3_complete] relies on: the
    batches concatenate to the input, each but the last is full, none is
    empty, and a positive size never fails.  [chunking_unique] shows the
    contract fixes the batches, so a client proved against the class
    knows every batch. *)

From Stdlib Require Import String List ZArith Lia.
From Equations Require Import Equations.
From S2P Require Import Prelude Runtime.
Import ListNotations.

Section Slices.
Context {A : Type}.

(** [range(0, stop, step)] for [step > 0]. *)
Definition py_range (stop step : nat) : list nat :=
  map (fun j => j * step) (seq 0 ((stop + step - 1) / step)).

(** [lst[i:i + size]] *)
Definition py_slice (lst : list A) (i size : nat) : list A :=
  firstn size (skipn i lst).

Definition constant_slices (lst : list A) (size : nat) : list (list A) :=
  map (fun i => py_slice lst i size) (py_range (length lst) size).

(** The reference: a batch of [S k] items, then the rest. *)
Equations? chunks (k : nat) (l : list A) : list (list A) by wf (length l) lt :=
  chunks k [] := [];
  chunks k (x :: xs) := firstn (S k) (x :: xs) :: chunks k (skipn (S k) (x :: xs)).
Proof. rewrite length_skipn. simpl. lia. Qed.
End Slices.

(** [batch.constant(lst, size)]; a non-positive size fails with
    [InvalidArgument]. *)
Definition constant {A} (lst : list A) (size : Z) : exc + list (list A) :=
  if (size <=? 0)%Z then inl (InvalidArgument "size must be positive.")
  else inr (constant_slices lst (Z.to_nat size)).

(** ** The contract of a batcher *)

Class Batcher : Type := {
  batch : forall {A}, list A -> Z -> exc + list (list A);
  batch_concat : forall A (l : list A) k bs, batch l k = inr bs -> concat bs = l;
  batch_full : forall A (l : list A) k bs, batch l k = inr bs ->
    Forall (fun b => length b = Z.to_nat k) (removelast bs);
  batch_nonempty : forall A (l : list A) k bs, batch l k = inr bs ->
    Forall (fun b => b <> []) bs;
  batch_bounded : forall A (l : list A) k bs, batch l k = inr bs ->
    Forall (fun b => length b <= Z.to_nat k) bs;
  batch_total : forall A (l : list A) k, (0 < k)%Z -> exists bs, batch l k = inr bs;
  batch_invalid : forall A (l : list A) k, (k <= 0)%Z -> exists e, batch l k = inl e
}.

(** ** Arithmetic of [ceil(n / s)] *)

Lemma ceil_div_succ (n s : nat) :
  1 <= n -> 1 <= s -> (n + s - 1) / s = S ((n - s + s - 1) / s).
Proof.
  intros Hn Hs.
  replace (n + s - 1) with (1 * s + (n - 1)) by lia.
  rewrite Nat.div_add_l by lia.
  destruct (Nat.le_gt_cases s n) as [Hle|Hgt].
  - replace (n - s + s - 1) with (n - 1) by lia. reflexivity.
  - replace (n - s + s - 1) with (s - 1) by lia.
    rewrite (Nat.div_small (s - 1)), (Nat.div_small (n - 1)); lia.
Qed.

Lemma ceil_div_zero (s : nat) : 1 <= s -> (0 + s - 1) / s = 0.
Proof. intros Hs. apply Nat.div_small. lia. Qed.

(** ** The reference [chunks] *)

Section ChunksLaws.
Context {A : Type}.

Lemma chunks_nil (k : nat) : chunks k (@nil A) = [].
Proof. simp chunks. reflexivity. Qed.

Lemma chunks_cons (k : nat) (l : list A) :
  l <> [] -> chunks k l = firstn (S k) l :: chunks k (skipn (S k) l).
Proof. destruct l as [|x xs]; [congruence|]. intros _. simp chunks. reflexivity. Qed.

(** Induction following the recursion of [chunks]. *)
Lemma chunks_rect_len (k : nat) (P : list A -> Prop) :
  P [] -> (forall l, l <> [] -> P (skipn (S k) l) -> P l) -> forall l, P l.
Proof.
  intros Hnil Hstep l. remember (length l) as n eqn:Hn.
  revert l Hn. induction n as [n IH] using lt_wf_ind. intros l Hn.
  destruct l as [|x xs]; [exact Hnil|].
  apply Hstep; [discriminate|]. apply (IH (length (skipn (S k) (x :: xs)))); [|reflexivity].
  rewrite length_skipn, Hn. simpl. lia.
Qed.

(** The batches concatenate back to the input, in order. *)
Lemma chunks_concat (k : nat) (l : list A) : concat (chunks k l) = l.
Proof.
  induction l as [|l Hl IH] using (chunks_rect_len k); [rewrite chunks_nil; reflexivity|].
  rewrite chunks_cons by exact Hl. cbn [concat]. rewrite IH. apply firstn_skipn.
Qed.

Lemma chunks_nonempty (k : nat) (l : list A) : Forall (fun b => b <> []) (chunks k l).
Proof.
  induction l as [|l Hl IH] using (chunks_rect_len k); [rewrite chunks_nil; constructor|].
  rewrite chunks_cons by exact Hl. constructor; [|exact IH].
  destruct l; [congruence | discriminate].
Qed.

Lemma chunks_bounded (k : nat) (l : list A) : Forall (fun b => length b <= S k) (chunks k l).
Proof.
  induction l as [|l Hl IH] using (chunks_rect_len k); [rewrite chunks_nil; constructor|].
  rewrite chunks_cons by exact Hl. constructor; [|exact IH].
  rewrite length_firstn. lia.
Qed.

(** Every batch but the last has exactly [S k] items. *)
Lemma chunks_full (k : nat) (l : list A) :
  Forall (fun b => length b = S k) (removelast (chunks k l)).
Proof.
  induction l as [|l Hl IH] using (chunks_rect_len k); [rewrite chunks_nil; constructor|].
  rewrite chunks_cons by exact Hl.
  destruct (skipn (S k) l) as [|y ys] eqn:E.
  - rewrite chunks_nil. constructor.
  - rewrite (chunks_cons k (y :: ys)) in * by discriminate.
    cbn [removelast]. constructor; [|exact IH].
    apply length_firstn_full.
    assert (0 < length (skipn (S k) l)) by (rewrite E; simpl; lia).
    rewrite length_skipn in H. lia.
Qed.

(** There are [ceil(len(l) / (k + 1))] batches. *)
Lemma chunks_length (k : nat) (l : list A) :
  length (chunks k l) = (length l + S k - 1) / S k.
Proof.
  induction l as [|l Hl IH] using (chunks_rect_len k).
  - rewrite chunks_nil. simpl length. rewrite ceil_div_zero; lia.
  - rewrite chunks_cons by exact Hl. cbn [length]. rewrite IH, length_skipn.
    destruct l as [|x xs]; [congruence|].
    rewrite (ceil_div_succ (length (x :: xs)) (S k)) by (simpl; lia).
    reflexivity.
Qed.

End ChunksLaws.

(** ** The slicing generator is the reference *)

Section SlicesEqChunks.
Context {A : Type}.

Lemma constant_slices_nil (s : nat) : 1 <= s -> constant_slices (@nil A) s = [].
Proof.
  intros Hs. unfold constant_slices, py_range. simpl length.
  rewrite ceil_div_zero by exact Hs. reflexivity.
Qed.

Lemma constant_slices_cons (l : list A) (s : nat) :
  l <> [] -> 1 <= s ->
  constant_slices l s = firstn s l :: constant_slices (skipn s l) s.
Proof.
  intros Hl Hs. assert (Hlen : 1 <= length l) by (destruct l; [congruence | simpl; lia]).
  unfold constant_slices, py_range. rewrite length_skipn.
  rewrite (ceil_div_succ (length l) s) by lia.
  cbn [seq map]. f_equal.
  rewrite <- seq_shift, !map_map. apply map_ext. intros j.
  unfold py_slice. rewrite skipn_skipn. do 2 f_equal. lia.
Qed.

(** The generator [range]/slice form of [batch.constant] computes
    the same batches as the recursive reference. *)
Lemma constant_slices_chunks (k : nat) (l : list A) :
  constant_slices l (S k) = chunks k l.
Proof.
  induction l as [|l Hl IH] using (chunks_rect_len k).
  - rewrite constant_slices_nil, chunks_nil by lia. reflexivity.
  - rewrite constant_slices_cons, chunks_cons, IH by (exact Hl || lia). reflexivity.
Qed.

Lemma constant_inr (l : list A) (k : Z) bs :
  constant l k = inr bs -> (0 < k)%Z /\ bs = chunks (Z.to_nat k - 1) l.
Proof.
  unfold constant. destruct (Z.leb_spec k 0) as [Hk|Hk]; [discriminate|].
  intros H. injection H as <-. split; [exact Hk|].
  replace (Z.to_nat k) with (S (Z.to_nat k - 1)) at 1 by lia.
  apply constant_slices_chunks.
Qed.

(** [batch.constant] fails with [InvalidArgument] on a non-positive size,
    for every input, the empty one included. *)
Lemma constant_nonpositive (l : list A) (k : Z) :
  (k <= 0)%Z -> constant l k = inl (InvalidArgument "size must be positive.").
Proof. intros Hk. unfold constant. destruct (Z.leb_spec k 0); [reflexivity | lia]. Qed.

(** The contract fixes the batches: any list of non-empty batches of at
    most [S k] items, full but for the last, that concatenates to [l]
    is [chunks k l]. *)
Lemma chunking_unique (k : nat) (bs : list (list A)) (l : list A) :
  concat bs = l ->
  Forall (fun b => length b = S k) (removelast bs) ->
  Forall (fun b => b <> []) bs ->
  Forall (fun b => length b <= S k) bs ->
  bs = chunks k l.
Proof.
  revert l. induction bs as [|b bs IH]; intros l Hc Hfull Hne Hle.
  - subst l. cbn [concat]. rewrite chunks_nil. reflexivity.
  - inversion Hne as [|? ? Hb Hne']; inversion Hle as [|? ? Hbl Hle']; subst.
    assert (Hl : b ++ concat bs <> []) by (destruct b; [congruence | discriminate]).
    simpl concat. rewrite chunks_cons by exact Hl.
    destruct bs as [|b' bs']; cbn [concat] in *.
    + rewrite app_nil_r, firstn_all2, skipn_all2, chunks_nil by lia. reflexivity.
    + inversion Hfull as [|? ? Hb' Hfull']; subst.
      rewrite firstn_app, skipn_app, Hb', Nat.sub_diag, firstn_O, skipn_O,
        firstn_all2, skipn_all2 by lia.
      rewrite app_nil_r. f_equal. apply IH; [reflexivity | exact Hfull' | exact Hne' | exact Hle'].
Qed.

End SlicesEqChunks.

(** [batch.constant] meets the contract. *)
#[export] Program Instance Batch : Batcher := { batch := @constant }.
Next Obligation.
  apply constant_inr in H as [_ ->]. apply chunks_concat.
Qed.
Next Obligation.
  apply constant_inr in H as [Hk ->].
  pose proof (chunks_full (Z.to_nat k - 1) l) as H.
  replace (S (Z.to_nat k - 1)) with (Z.to_nat k) in H by lia. exact H.
Qed.
Next Obligation.
  apply constant_inr in H as [_ ->]. apply chunks_nonempty.
Qed.
Next Obligation.
  apply constant_inr in H as [Hk ->].
  pose proof (chunks_bounded (Z.to_nat k - 1) l) as H.
  replace (S (Z.to_nat k - 1)) with (Z.to_nat k) in H by lia. exact H.
Qed.
Next Obligation.
  unfold constant. destruct (Z.leb_spec k 0); [lia|]. eauto.
Qed.
Next Obligation.
  rewrite constant_nonpositive by exact H. eauto.
Qed.

Example constant_run : constant [1; 2; 3; 4; 5] 2 = inr [[1; 2]; [3; 4]; [5]].
Proof. reflexivity. Qed.

Example constant_zero : constant [1; 2; 3] 0 = inl (InvalidArgument "size must be positive.").
Proof. reflexivity. Qed.
