(* ===== verification/Prompt.v ===== *)
(** * The confirmation prompt (api.py:84-85)

    [input(f'This API call will cost you about ${cost} '
           f'({num_tokens:_} tokens). Proceed? (y/n): ')]
    is the only text the user sees before paying.  [format_grouped] is
    Python's [format(n, '_')] on an [int]: its decimal digits with an
    underscore between groups of three, counted from the right, and a
    leading minus for a negative number.  [str_cost] is [str] of the
    rounded cost, or ['unknown'].  The theorems show the grouping agrees
    with its definition by groups of three ([group3_spec]), that the
    number can be read back from the formatted text ([format_grouped_roundtrip]),
    and that the prompt shows the exact token estimate
    ([prompt_text_tokens]). *)

From Stdlib Require Import Ascii String List ZArith QArith Lia.
From Stdlib Require Import Decimal DecimalZ.
From S2P Require Import Prelude Runtime Batch.
Import ListNotations.
Local Open Scope list_scope.

(** ** Digits *)

(** The characters of a decimal digit string. *)
Fixpoint uint_chars (d : uint) : list ascii :=
  match d with
  | Nil => []
  | D0 d => "0"%char :: uint_chars d
  | D1 d => "1"%char :: uint_chars d
  | D2 d => "2"%char :: uint_chars d
  | D3 d => "3"%char :: uint_chars d
  | D4 d => "4"%char :: uint_chars d
  | D5 d => "5"%char :: uint_chars d
  | D6 d => "6"%char :: uint_chars d
  | D7 d => "7"%char :: uint_chars d
  | D8 d => "8"%char :: uint_chars d
  | D9 d => "9"%char :: uint_chars d
  end.

(** The digit a character stands for, if any. *)
Definition digit_of (c : ascii) : option (uint -> uint) :=
  if Ascii.eqb c "0" then Some D0 else if Ascii.eqb c "1" then Some D1 else
  if Ascii.eqb c "2" then Some D2 else if Ascii.eqb c "3" then Some D3 else
  if Ascii.eqb c "4" then Some D4 else if Ascii.eqb c "5" then Some D5 else
  if Ascii.eqb c "6" then Some D6 else if Ascii.eqb c "7" then Some D7 else
  if Ascii.eqb c "8" then Some D8 else if Ascii.eqb c "9" then Some D9 else None.

Fixpoint chars_uint (l : list ascii) : option uint :=
  match l with
  | [] => Some Nil
  | c :: l' =>
      match digit_of c, chars_uint l' with
      | Some f, Some d => Some (f d)
      | _, _ => None
      end
  end.

Definition digit_chars : list ascii :=
  ["0"; "1"; "2"; "3"; "4"; "5"; "6"; "7"; "8"; "9"]%char.

(** ** [format(n, '_')] *)

(** Groups of three from the left of a reversed digit string: the
    underscore goes after every third digit that is not the last. *)
Fixpoint group_rev (l : list ascii) : list ascii :=
  match l with
  | a :: b :: c :: ((_ :: _) as rest) => a :: b :: c :: "_"%char :: group_rev rest
  | _ => l
  end.

(** Groups of three counted from the right. *)
Definition group3 (l : list ascii) : list ascii := List.rev (group_rev (List.rev l)).

(** [str(n)] of an [int]. *)
Definition decimal_chars (n : Z) : list ascii :=
  match Z.to_int n with
  | Pos d => uint_chars d
  | Neg d => "-"%char :: uint_chars d
  end.

(** Line 85: [f'{num_tokens:_}']. *)
Definition format_grouped (n : Z) : string :=
  match Z.to_int n with
  | Pos d => string_of_list_ascii (group3 (uint_chars d))
  | Neg d => string_of_list_ascii ("-"%char :: group3 (uint_chars d))
  end.

(** Reading a grouped number back: drop the underscores. *)
Definition ungroup (l : list ascii) : list ascii :=
  filter (fun c => negb (Ascii.eqb c "_")) l.

Definition parse_grouped (s : string) : option Z :=
  let l := list_ascii_of_string s in
  let pos := option_map (fun d => Z.of_int (Pos d)) (chars_uint (ungroup l)) in
  match l with
  | c :: l' =>
      if Ascii.eqb c "-" then option_map (fun d => Z.of_int (Neg d)) (chars_uint (ungroup l'))
      else pos
  | [] => pos
  end.

(** The definition of the ['_'] option (PEP 515): the digits cut into
    groups of three from the right, joined by underscores. *)
Fixpoint join (sep : ascii) (ls : list (list ascii)) : list ascii :=
  match ls with
  | [] => []
  | [x] => x
  | x :: ls' => x ++ sep :: join sep ls'
  end.

Definition group3_ref (l : list ascii) : list ascii :=
  join "_" (map (@List.rev ascii) (List.rev (chunks 2 (List.rev l)))).

(** ** [str(cost)] and the prompt *)

(** The character of a digit [0 <= k < 10]. *)
Definition digit_char (k : Z) : ascii := nth (Z.to_nat k) digit_chars "0"%char.

(** The fraction of a float with two decimals, as [repr] prints it:
    trailing zeros dropped, at least one digit. *)
Definition frac_chars (cents : Z) : list ascii :=
  if (cents mod 10 =? 0)%Z then [digit_char (cents / 10)]
  else [digit_char (cents / 10); digit_char (cents mod 10)].

(** [str(z / 100)] for a float holding a whole number [z] of cents. *)
Definition str_cents (z : Z) : list ascii :=
  (if (z <? 0)%Z then ["-"%char] else []) ++
  decimal_chars (Z.abs z / 100) ++ "."%char :: frac_chars (Z.abs z mod 100).

(** Line 84: [f'{cost}'], the string ['unknown'] or the rounded float. *)
Definition str_cost (c : cost_shown) : string :=
  match c with
  | CostUnknown => "unknown"
  | CostDollars q => string_of_list_ascii (str_cents (Qnum q * 100 / Zpos (Qden q)))
  end.

(** Lines 84-85: the text of the [input] prompt. *)
Definition prompt_text (cost : cost_shown) (num_tokens : Z) : string :=
  ("This API call will cost you about $" ++ str_cost cost ++ " (" ++
   format_grouped num_tokens ++ " tokens). Proceed? (y/n): ")%string.

(** What a reader of the prompt takes for the token count: the text
    between the first ['('] and the next space. *)
Fixpoint drop_through (c : ascii) (l : list ascii) : list ascii :=
  match l with
  | [] => []
  | x :: l' => if Ascii.eqb x c then l' else drop_through c l'
  end.

Fixpoint take_until (c : ascii) (l : list ascii) : list ascii :=
  match l with
  | [] => []
  | x :: l' => if Ascii.eqb x c then [] else x :: take_until c l'
  end.

Definition tokens_shown (s : string) : option Z :=
  parse_grouped (string_of_list_ascii
    (take_until " " (drop_through "(" (list_ascii_of_string s)))).

(** ** Grouping *)

Lemma group_rev_join l : group_rev l = join "_" (chunks 2 l).
Proof.
  induction l as [|l Hl IH] using (chunks_rect_len 2); [rewrite chunks_nil; reflexivity|].
  destruct l as [|a [|b [|c [|d rest]]]]; [contradiction| | | |];
    rewrite chunks_cons by discriminate; cbn [firstn skipn] in *;
    [rewrite chunks_nil; reflexivity ..|].
  change (group_rev (a :: b :: c :: d :: rest))
    with (a :: b :: c :: "_"%char :: group_rev (d :: rest)).
  rewrite IH, (chunks_cons 2 (d :: rest)) by discriminate. reflexivity.
Qed.

Lemma join_cons s y ls : ls <> [] -> join s (y :: ls) = y ++ s :: join s ls.
Proof. destruct ls; [contradiction|reflexivity]. Qed.

Lemma join_snoc s ls x : ls <> [] -> join s (ls ++ [x]) = join s ls ++ s :: x.
Proof.
  intros Hne. induction ls as [|y ls IH]; [contradiction|].
  destruct ls as [|z ls]; [reflexivity|].
  rewrite <- app_comm_cons, join_cons, IH, (join_cons s y (z :: ls)), <- app_assoc;
    try discriminate; reflexivity.
Qed.

Lemma rev_join s ls : List.rev (join s ls) = join s (List.rev (map (@List.rev ascii) ls)).
Proof.
  induction ls as [|x ls IH]; [reflexivity|].
  destruct ls as [|y ls]; [reflexivity|].
  rewrite join_cons, rev_app_distr by discriminate.
  change (List.rev (s :: join s (y :: ls))) with (List.rev (join s (y :: ls)) ++ [s]).
  rewrite IH. cbn [map List.rev].
  rewrite (join_snoc s (List.rev (map (@List.rev ascii) ls) ++ [List.rev y])); [now rewrite <- app_assoc|].
  intros E. apply (f_equal (@length _)) in E. rewrite length_app in E. simpl in E. lia.
Qed.

(** the grouping of [format_grouped] is the one PEP 515 defines for
    the ['_'] option: the digits cut into groups of three from the right,
    so only the leftmost group may be shorter, joined by underscores. *)
Theorem group3_spec l : group3 l = group3_ref l.
Proof.
  unfold group3, group3_ref. rewrite group_rev_join, rev_join, map_rev. reflexivity.
Qed.

(** ** Reading the number back *)

Lemma ungroup_join ls :
  ungroup (join "_" ls) = concat (map ungroup ls).
Proof.
  induction ls as [|x ls IH]; [reflexivity|].
  destruct ls as [|y ls]; [simpl; rewrite app_nil_r; reflexivity|].
  rewrite join_cons by discriminate. unfold ungroup in *.
  rewrite filter_app. change (filter ?p ("_"%char :: ?r)) with (filter p r).
  rewrite IH. reflexivity.
Qed.

Lemma ungroup_group3 l : ungroup (group3 l) = ungroup l.
Proof.
  unfold group3. rewrite group_rev_join. unfold ungroup.
  rewrite filter_rev. fold (ungroup (join "_" (chunks 2 (List.rev l)))).
  rewrite ungroup_join. unfold ungroup. rewrite concat_filter_map, chunks_concat.
  rewrite filter_rev, rev_involutive. reflexivity.
Qed.

Lemma ungroup_uint_chars d : ungroup (uint_chars d) = uint_chars d.
Proof. induction d; simpl; f_equal; assumption. Qed.

Lemma chars_uint_uint_chars d : chars_uint (uint_chars d) = Some d.
Proof. induction d; simpl; rewrite ?IHd; reflexivity. Qed.

Lemma in_join s ls c : In c (join s ls) -> In c (concat ls) \/ c = s.
Proof.
  induction ls as [|x ls IH]; [simpl; tauto|].
  destruct ls as [|y ls]; [simpl; rewrite app_nil_r; tauto|].
  rewrite join_cons by discriminate. change (concat (x :: y :: ls)) with (x ++ concat (y :: ls)).
  rewrite !in_app_iff. intros [H|[H|H]]; [tauto|auto|]. destruct (IH H); tauto.
Qed.

(** Grouping adds nothing but underscores. *)
Lemma in_group3 l c : In c (group3 l) -> In c l \/ c = "_"%char.
Proof.
  unfold group3. rewrite group_rev_join, <- in_rev.
  intros H. destruct (in_join _ _ _ H) as [H'|H']; [|auto].
  rewrite chunks_concat, <- in_rev in H'. auto.
Qed.

Lemma in_uint_chars d c : In c (uint_chars d) -> In c digit_chars.
Proof.
  induction d; simpl; intros H; [contradiction|..]; destruct H as [<-|H]; simpl; tauto.
Qed.

(** A digit string read back after [format_grouped]. *)
Lemma chars_uint_ungroup d : chars_uint (ungroup (group3 (uint_chars d))) = Some d.
Proof. rewrite ungroup_group3, ungroup_uint_chars. apply chars_uint_uint_chars. Qed.

Lemma group3_not_minus d l : group3 (uint_chars d) = l -> ~ In "-"%char l.
Proof.
  intros <- H. destruct (in_group3 _ _ H) as [H'|H']; [|discriminate].
  apply in_uint_chars in H'. simpl in H'. intuition discriminate.
Qed.

(** [f'{num_tokens:_}'] loses nothing: the number is read back
    from the text shown, for every [int], negative ones included. *)
Theorem format_grouped_roundtrip n : parse_grouped (format_grouped n) = Some n.
Proof.
  unfold format_grouped, parse_grouped.
  destruct (Z.to_int n) as [d|d] eqn:E; rewrite list_ascii_of_string_of_list_ascii; cbv zeta.
  - pose proof (group3_not_minus d _ eq_refl) as Hm. pose proof (chars_uint_ungroup d) as Hd.
    destruct (group3 (uint_chars d)) as [|c l'].
    + rewrite Hd. simpl. rewrite <- (DecimalZ.of_to n), E. reflexivity.
    + destruct (Ascii.eqb_spec c "-") as [->|Hc]; [exfalso; apply Hm; left; reflexivity|].
      rewrite Hd. simpl. rewrite <- (DecimalZ.of_to n), E. reflexivity.
  - simpl. rewrite chars_uint_ungroup. simpl. rewrite <- (DecimalZ.of_to n), E. reflexivity.
Qed.

(** ** The prompt shows the estimate *)

Lemma list_ascii_of_string_append s1 s2 :
  list_ascii_of_string (s1 ++ s2) = list_ascii_of_string s1 ++ list_ascii_of_string s2.
Proof. induction s1 as [|a s1 IH]; simpl; [reflexivity|]. rewrite IH. reflexivity. Qed.

Lemma drop_through_skip c l1 l2 :
  ~ In c l1 -> drop_through c (l1 ++ l2) = drop_through c l2.
Proof.
  induction l1 as [|x l1 IH]; intros Hn; simpl; [reflexivity|].
  destruct (Ascii.eqb_spec x c) as [->|_]; [exfalso; apply Hn; left; reflexivity|].
  apply IH. intros H. apply Hn. right. exact H.
Qed.

Lemma take_until_app c l1 l2 :
  ~ In c l1 -> take_until c (l1 ++ c :: l2) = l1.
Proof.
  induction l1 as [|x l1 IH]; intros Hn; simpl.
  - rewrite Ascii.eqb_refl. reflexivity.
  - destruct (Ascii.eqb_spec x c) as [->|_]; [exfalso; apply Hn; left; reflexivity|].
    rewrite IH; [reflexivity|]. intros H. apply Hn. right. exact H.
Qed.

Lemma in_decimal_chars n c : In c (decimal_chars n) -> In c digit_chars \/ c = "-"%char.
Proof.
  unfold decimal_chars. destruct (Z.to_int n) as [d|d]; simpl; intros H.
  - left. eapply in_uint_chars. exact H.
  - destruct H as [<-|H]; [auto|]. left. eapply in_uint_chars. exact H.
Qed.

Lemma in_digit_char k : In (digit_char k) digit_chars.
Proof.
  unfold digit_char. destruct (Nat.lt_ge_cases (Z.to_nat k) (length digit_chars)).
  - apply nth_In. assumption.
  - rewrite nth_overflow by assumption. left. reflexivity.
Qed.

(** The characters the cost and the number can hold. *)
Lemma in_str_cost c x :
  In x (list_ascii_of_string (str_cost c)) ->
  In x digit_chars \/ In x ["-"; "."; "u"; "n"; "k"; "o"; "w"]%char.
Proof.
  destruct c as [|q]; simpl; [intuition|].
  rewrite list_ascii_of_string_of_list_ascii. unfold str_cents, frac_chars.
  rewrite !in_app_iff. intros [H|[H|[<-|H]]].
  - destruct (_ <? _)%Z; simpl in H; intuition.
  - destruct (in_decimal_chars _ _ H); subst; simpl; tauto.
  - simpl; tauto.
  - destruct (_ =? _)%Z; simpl in H; intuition (subst; left; apply in_digit_char).
Qed.

Lemma in_format_grouped n x :
  In x (list_ascii_of_string (format_grouped n)) ->
  In x digit_chars \/ x = "_"%char \/ x = "-"%char.
Proof.
  assert (G : forall d, In x (group3 (uint_chars d)) ->
                In x digit_chars \/ x = "_"%char \/ x = "-"%char)
    by (intros d H; destruct (in_group3 _ _ H); [left; eapply in_uint_chars; eassumption|auto]).
  unfold format_grouped. destruct (Z.to_int n) as [d|d];
    rewrite list_ascii_of_string_of_list_ascii; intros H; [exact (G d H)|].
  destruct H as [<-|H]; [auto|exact (G d H)].
Qed.

(** the prompt shows the exact token estimate: the text between its
    first parenthesis and the next space reads back as [num_tokens],
    whatever the cost shown before it. *)
Theorem prompt_text_tokens cost n : tokens_shown (prompt_text cost n) = Some n.
Proof.
  unfold tokens_shown, prompt_text. rewrite !list_ascii_of_string_append.
  rewrite drop_through_skip by (simpl; intuition discriminate).
  rewrite drop_through_skip
    by (intros H; destruct (in_str_cost _ _ H) as [H'|H']; simpl in H'; intuition discriminate).
  change (drop_through "("%char (list_ascii_of_string " (" ++ ?Y)) with Y.
  change (list_ascii_of_string " tokens). Proceed? (y/n): ")
    with (" "%char :: list_ascii_of_string "tokens). Proceed? (y/n): ").
  rewrite take_until_app, string_of_list_ascii_of_string; [apply format_grouped_roundtrip|].
  intros H. destruct (in_format_grouped _ _ H) as [H'|[H'|H']]; [|discriminate ..].
  simpl in H'. intuition discriminate.
Qed.

(** ** Witnesses *)

(** The prompt for 1234567 tokens at 49 cents, as Python prints it. *)
Example prompt_text_example :
  prompt_text (CostDollars (49 # 100)) 1234567
  = "This API call will cost you about $0.49 (1_234_567 tokens). Proceed? (y/n): "%string.
Proof. reflexivity. Qed.

Example format_grouped_examples :
  map format_grouped [0; 999; 1000; -1234567]%Z = ["0"; "999"; "1_000"; "-1_234_567"]%string.
Proof. reflexivity. Qed.
