(* ===== verification/Cost.v ===== *)
(** * The cost gate [_openai_api_call_is_ok] (api.py:30-37, 63-87)

    The price table [model_to_cost_per_1k] is a Python dict built by
    [dict(zip(get_args(Model), _costs))], modelled as a [gmap] filled
    left to right, so later keys win as in Python.  The token estimate is
    the prompt tokens plus [len(texts) * max_tokens].  The cost is
    [round(num_tokens * cost_per_1k / 1000, 2)], or ['unknown'] for a
    model absent from the table.  The [while output not in {'y', 'n'}]
    loop reads stdin: [confirm_loop] has fuel for one iteration per
    remaining line and one more, and [confirm_loop_answer] and
    [confirm_loop_eof] hold for any fuel beyond the lines read, so the
    fuel is never the reason it stops.  [appends_gate] shows the gate
    only prompts. *)

From Stdlib Require Import String List ZArith QArith Qround Qabs Lia Lqa.
From stdpp Require Import gmap strings.
From S2P Require Import Prelude Runtime Prompt.
Import ListNotations.

(** ** The price table *)

(** [dict(pairs)]: each pair overwrites an earlier one with its key. *)
Definition py_dict {V} (l : list (string * V)) : gmap string V :=
  fold_left (fun m kv => <[kv.1 := kv.2]> m) l ∅.

(** [get_args(Model)] (lines 30-33). *)
Definition Model_args : list string :=
  ["text-ada-001"; "text-babbage-001"; "text-curie-001"; "text-davinci-003"]%string.

(** [_costs] (line 34), dollars per 1000 tokens. *)
Definition _costs : list Q := [4 # 10000; 5 # 10000; 2 # 1000; 2 # 100].

(** Line 37. *)
Definition model_to_cost_per_1k : gmap string Q := py_dict (combine Model_args _costs).

(** ** Python's [round(x, 2)] *)

(** [round(x)] for a rational: the nearest integer, ties to even. *)
Definition round_half_even (q : Q) : Z :=
  let f := Qfloor q in
  match Qcompare (q - inject_Z f) (1 # 2) with
  | Lt => f
  | Gt => f + 1
  | Eq => if Z.even f then f else f + 1
  end.

(** [round(x, 2)]: to the nearest cent, ties to even. *)
Definition py_round2 (q : Q) : Q := round_half_even (q * 100) # 100.

(** ** The estimate *)

Section Gate.
(** [gpt2_tokenizer(texts)['input_ids']] gives the token ids of each
    text; the tokenizer itself is outside the program. *)
Variable tokenize : string -> list Z.

(** Lines 73-76: [num_tokens].  The sum runs text by text, so an empty
    [texts] gives [0]; the Hugging Face tokenizer called on an empty
    list raises instead, which this definition does not model. *)
Definition num_tokens (texts : list string) (max_tokens : Z) : Z :=
  Z.of_nat (fold_right (fun t acc => length (tokenize t) + acc)%nat 0%nat texts)
  + Z.of_nat (length texts) * max_tokens.

(** Lines 77-81: [cost].  The product and quotient are exact; CPython
    computes them in binary floating point, so at an exact tie of half a
    cent its [round] may go either way, where [py_round2] goes to even. *)
Definition cost_of (model : string) (n : Z) : cost_shown :=
  match model_to_cost_per_1k !! model with
  | None => CostUnknown
  | Some c => CostDollars (py_round2 (inject_Z n * c / 1000))
  end.

Definition is_yn (s : string) : bool :=
  String.eqb s "y" || String.eqb s "n".

(** [output in {'y', 'n'}], with [None] for Python's [None]. *)
Definition output_done (output : option string) : bool :=
  match output with Some o => is_yn o | None => false end.

(** Lines 82-85: [output = None; while output not in {'y', 'n'}:
    output = input(prompt)].  The f-string [prompt] does not change
    between iterations, so it is computed once. *)
Fixpoint confirm_loop (prompt : string) (fuel : nat) (output : option string)
  : M (option string) :=
  if output_done output then ret output else
  match fuel with
  | O => raise EOFError
  | S fuel' => let* o := input prompt in confirm_loop prompt fuel' (Some o)
  end.

(** Lines 67-87.  The loop gets one iteration per line left on stdin
    and one more, whose [input()] raises [EOFError]. *)
Definition _openai_api_call_is_ok (model : string) (texts : list string) (max_tokens : Z)
  : M unit :=
  let n := num_tokens texts max_tokens in
  let cost := cost_of model n in
  let* w := get in
  let* output := confirm_loop (prompt_text cost n) (S (length (w_stdin w))) None in
  if decide (output = Some "n"%string) then raise UserCanceled else ret tt.
End Gate.

(** ** The confirmation loop *)

Section Confirm.
Variable prompt : string.

Lemma input_run w l rest :
  w_stdin w = l :: rest ->
  input prompt w
  = (inr l, mk_world (w_endpoint w) (w_calls w) rest (w_trace w ++ [EvPrompt prompt])).
Proof. intros H. unfold input, add_event. simpl. rewrite H. reflexivity. Qed.

Lemma confirm_loop_done fuel output :
  output_done output = true -> confirm_loop prompt fuel output = ret output.
Proof. intros H. destruct fuel; simpl; rewrite H; reflexivity. Qed.

(** The loop prompts once per line it reads, up to and including the
    first ["y"] or ["n"] line [ans], which it returns. *)
Lemma confirm_loop_answer junk ans rest fuel output w :
  output_done output = false ->
  Forall (fun l => is_yn l = false) junk -> is_yn ans = true ->
  w_stdin w = junk ++ ans :: rest -> (S (length junk) <= fuel)%nat ->
  confirm_loop prompt fuel output w
  = (inr (Some ans), mk_world (w_endpoint w) (w_calls w) rest
                       (w_trace w ++ repeat (EvPrompt prompt) (S (length junk)))).
Proof.
  revert fuel output w.
  induction junk as [|j junk IH]; intros [|fuel] output w Hd Hj Ha Hin Hf;
    simpl in Hf; try lia; simpl; rewrite Hd.
  - rewrite (bind_inr _ _ _ _ _ (input_run w ans rest Hin)). rewrite confirm_loop_done by exact Ha. reflexivity.
  - inversion Hj as [|? ? Hj1 Hj2]; subst.
    rewrite (bind_inr _ _ _ _ _ (input_run w j (junk ++ ans :: rest) Hin)).
    rewrite IH by (simpl; auto; lia). simpl.
    rewrite <- app_assoc. reflexivity.
Qed.

(** Without a ["y"]/["n"] line the loop reads all of stdin, prompts
    once more, and [input()] raises [EOFError]. *)
Lemma confirm_loop_eof fuel output w :
  output_done output = false ->
  Forall (fun l => is_yn l = false) (w_stdin w) ->
  (S (length (w_stdin w)) <= fuel)%nat ->
  confirm_loop prompt fuel output w
  = (inl EOFError, mk_world (w_endpoint w) (w_calls w) []
                    (w_trace w ++ repeat (EvPrompt prompt) (S (length (w_stdin w))))).
Proof.
  destruct w as [ep c stdin tr]. simpl. revert fuel output tr.
  induction stdin as [|j junk IH]; intros [|fuel] output tr Hd Hj Hf;
    simpl in Hf; try lia; simpl; rewrite Hd.
  - reflexivity.
  - inversion Hj as [|? ? Hj1 Hj2]; subst.
    rewrite (bind_inr _ _ _ _ _ (input_run (mk_world ep c (j :: junk) tr) j junk eq_refl)).
    rewrite IH by (simpl; auto; lia). rewrite <- app_assoc. reflexivity.
Qed.
End Confirm.

Section GateTheorems.
Variable tokenize : string -> list Z.
Variables (model : string) (texts : list string) (max_tokens : Z).

#[local] Abbreviation n := (num_tokens tokenize texts max_tokens).
#[local] Abbreviation cost := (cost_of model (num_tokens tokenize texts max_tokens)).

(** The world after the gate has read [k] lines up to [rest]. *)
Definition after_prompts (w : world) (rest : list string) (k : nat) : world :=
  mk_world (w_endpoint w) (w_calls w) rest (w_trace w ++ repeat (EvPrompt (prompt_text cost n)) k).

Lemma gate_answer junk ans rest w :
  Forall (fun l => is_yn l = false) junk -> is_yn ans = true ->
  w_stdin w = junk ++ ans :: rest ->
  _openai_api_call_is_ok tokenize model texts max_tokens w
  = (if decide (Some ans = Some "n"%string) then raise UserCanceled else ret tt)
      (after_prompts w rest (S (length junk))).
Proof.
  intros Hj Ha Hin. unfold _openai_api_call_is_ok.
  cbn [bind get]. rewrite Hin.
  erewrite bind_inr; [reflexivity|].
  apply confirm_loop_answer; auto. rewrite length_app. simpl. lia.
Qed.

Lemma gate_declined junk rest w :
  Forall (fun l => is_yn l = false) junk ->
  w_stdin w = junk ++ "n"%string :: rest ->
  _openai_api_call_is_ok tokenize model texts max_tokens w
  = (inl UserCanceled, after_prompts w rest (S (length junk))).
Proof.
  intros Hj Hin. rewrite (gate_answer junk "n"%string rest w Hj eq_refl Hin).
  reflexivity.
Qed.

(** C18: the operator types lines [junk] with no ["y"]/["n"], then
    ["n"].  The gate raises [UserCanceled] having prompted once per line
    read; it makes no remote call and leaves the later lines unread. *)
Theorem openai_api_call_declined junk rest w :
  Forall (fun l => is_yn l = false) junk ->
  w_stdin w = junk ++ "n"%string :: rest ->
  _openai_api_call_is_ok tokenize model texts max_tokens w
  = (inl UserCanceled, after_prompts w rest (S (length junk))).
Proof. intros; eapply gate_declined; eassumption. Qed.

(** C19: the same with ["y"]: the gate returns normally. *)
Theorem openai_api_call_accepted junk rest w :
  Forall (fun l => is_yn l = false) junk ->
  w_stdin w = junk ++ "y"%string :: rest ->
  _openai_api_call_is_ok tokenize model texts max_tokens w
  = (inr tt, after_prompts w rest (S (length junk))).
Proof.
  intros Hj Hin. rewrite (gate_answer junk "y"%string rest w Hj eq_refl Hin).
  reflexivity.
Qed.

(** C20: with no ["y"]/["n"] line, the gate reads all of stdin and
    fails with [EOFError]; it does not proceed. *)
Theorem openai_api_call_eof w :
  Forall (fun l => is_yn l = false) (w_stdin w) ->
  _openai_api_call_is_ok tokenize model texts max_tokens w
  = (inl EOFError, after_prompts w [] (S (length (w_stdin w)))).
Proof.
  intros Hj. unfold _openai_api_call_is_ok. cbn [bind get].
  erewrite bind_inl; [reflexivity|]. apply confirm_loop_eof; auto.
Qed.
End GateTheorems.

(** ** The shape of the gate's trace *)

(** The events of the gate: the confirmation prompts. *)
Definition prompt_event (ev : event) : Prop :=
  match ev with EvPrompt _ => True | _ => False end.

Lemma appends_confirm_loop prompt fuel output :
  appends (fun ev => ev = EvPrompt prompt) (confirm_loop prompt fuel output).
Proof.
  revert output. induction fuel as [|fuel IH]; intros output; simpl;
    destruct (output_done output); auto with lmc_trace.
Qed.

(** The gate only shows its prompt, the same text every time. *)
Lemma appends_gate_prompt tokenize model texts max_tokens :
  appends (fun ev => ev = EvPrompt (prompt_text (cost_of model (num_tokens tokenize texts max_tokens))
                                               (num_tokens tokenize texts max_tokens)))
    (_openai_api_call_is_ok tokenize model texts max_tokens).
Proof.
  unfold _openai_api_call_is_ok.
  apply appends_bind; [auto with lmc_trace|]. intros w.
  apply appends_bind; [apply appends_confirm_loop|]. intros o.
  destruct (decide _); auto with lmc_trace.
Qed.

(** C29: the prompt the operator reads is the f-string of lines 84-85 at
    the estimate of lines 72-81, shown once per line read.  The token
    count it prints, [f'{num_tokens:_}'], reads back as that estimate. *)
Theorem gate_prompt_shows_estimate tokenize model texts max_tokens w :
  exists ps,
    w_trace (snd (_openai_api_call_is_ok tokenize model texts max_tokens w)) = w_trace w ++ ps /\
    Forall (fun ev => ev = EvPrompt (prompt_text (cost_of model (num_tokens tokenize texts max_tokens))
                                                (num_tokens tokenize texts max_tokens))) ps /\
    tokens_shown (prompt_text (cost_of model (num_tokens tokenize texts max_tokens))
                              (num_tokens tokenize texts max_tokens))
    = Some (num_tokens tokenize texts max_tokens).
Proof.
  destruct (appends_gate_prompt tokenize model texts max_tokens w) as [_ (ps & T & F)].
  exists ps. split; [exact T|]. split; [exact F|]. apply prompt_text_tokens.
Qed.

Lemma appends_gate tokenize model texts max_tokens :
  appends prompt_event (_openai_api_call_is_ok tokenize model texts max_tokens).
Proof.
  eapply appends_mono; [|apply appends_gate_prompt]. intros ev ->. exact I.
Qed.

(** ** The price table and the displayed cost *)

Lemma model_to_cost_none model :
  model_to_cost_per_1k !! model = None <-> ~ In model Model_args.
Proof.
  unfold model_to_cost_per_1k, py_dict. simpl.
  rewrite !lookup_insert, lookup_empty.
  repeat case_decide; subst; simpl; split; intros; try discriminate; intuition congruence.
Qed.

(** C21: the cost is ['unknown'] exactly for the models outside
    [get_args(Model)]. *)
Theorem cost_of_unknown model n :
  cost_of model n = CostUnknown <-> ~ In model Model_args.
Proof.
  rewrite <- model_to_cost_none. unfold cost_of.
  destruct (model_to_cost_per_1k !! model); split; congruence.
Qed.

Lemma round_half_even_small (q : Q) :
  (0 <= q)%Q -> (q <= 1 # 2)%Q -> round_half_even q = 0%Z.
Proof.
  intros H0 H1. unfold round_half_even.
  assert (Hf : Qfloor q = 0%Z).
  { pose proof (Qfloor_le q) as Hle. pose proof (Qlt_floor q) as Hlt.
    assert (inject_Z (Qfloor q) < 1)%Q by lra.
    assert (0 < inject_Z (Qfloor q + 1))%Q by lra.
    change 1%Q with (inject_Z 1) in *. change 0%Q with (inject_Z 0) in *.
    rewrite <- Zlt_Qlt in *. lia. }
  rewrite Hf. change (inject_Z 0) with 0%Q.
  destruct (Qcompare_spec (q - 0) (1 # 2)) as [|Hlt|Hgt]; [reflexivity|reflexivity|lra].
Qed.

(** C22: the cheapest model's estimate is displayed as [$0.0] below
    12,500 tokens: the two-decimal rounding hides the cost of a
    classification run of that size.  Below the tie at 12,500 the exact
    value is at least 4e-7 under half a cent, far more than the error of
    CPython's two float operations, so CPython shows [0.0] too.  At
    12,500 the float product lies just above the tie and CPython shows
    [0.01]; the bound stops before it. *)
Theorem cost_ada_rounds_to_zero n :
  (0 <= n < 12500)%Z -> cost_of "text-ada-001" n = CostDollars (0 # 100).
Proof.
  intros Hn. unfold cost_of.
  change (model_to_cost_per_1k !! "text-ada-001"%string) with (Some (4 # 10000)).
  unfold py_round2.
  assert (E : (inject_Z n * (4 # 10000) / 1000 * 100 == inject_Z n * (1 # 25000))%Q)
    by field.
  assert (0 <= inject_Z n)%Q by (change 0%Q with (inject_Z 0); rewrite <- Zle_Qle; lia).
  assert (inject_Z n <= 12499)%Q
    by (change 12499%Q with (inject_Z 12499); rewrite <- Zle_Qle; lia).
  rewrite round_half_even_small; [reflexivity | rewrite E; lra | rewrite E; lra].
Qed.

(** ** Witnesses *)

Definition ex_tokenize (s : string) : list Z := map (fun _ => 0%Z) (list_ascii_of_string s).

Definition stdin_world (lines : list string) : world :=
  mk_world (fun _ _ => inl (OpenAIError "unused")) 0 lines [].

Lemma openai_api_call_declined_witness :
  Forall (fun l => is_yn l = false) ["maybe"%string] /\
  _openai_api_call_is_ok ex_tokenize "text-davinci-003" ["great movie"%string] 0
    (stdin_world ["maybe"; "n"; "y"]%string)
  = (inl UserCanceled,
     after_prompts ex_tokenize "text-davinci-003" ["great movie"%string] 0
       (stdin_world ["maybe"; "n"; "y"]%string) ["y"%string] 2).
Proof.
  assert (Hj : Forall (fun l => is_yn l = false) ["maybe"%string]) by (repeat constructor).
  split; [exact Hj|].
  apply (openai_api_call_declined _ _ _ _ ["maybe"%string] ["y"%string] _ Hj). reflexivity.
Defined.

Lemma openai_api_call_accepted_witness :
  Forall (fun l => is_yn l = false) ([] : list string) /\
  _openai_api_call_is_ok ex_tokenize "text-ada-001" ["ok"%string] 1 (stdin_world ["y"%string])
  = (inr tt, after_prompts ex_tokenize "text-ada-001" ["ok"%string] 1
               (stdin_world ["y"%string]) [] 1).
Proof.
  split; [constructor|].
  apply (openai_api_call_accepted _ _ _ _ [] [] _ ltac:(constructor)). reflexivity.
Defined.

Lemma openai_api_call_eof_witness :
  Forall (fun l => is_yn l = false) ["Y"; "yes"]%string /\
  _openai_api_call_is_ok ex_tokenize "gpt-4" ["ok"%string] 0 (stdin_world ["Y"; "yes"]%string)
  = (inl EOFError, after_prompts ex_tokenize "gpt-4" ["ok"%string] 0
                     (stdin_world ["Y"; "yes"]%string) [] 3).
Proof.
  assert (Hj : Forall (fun l => is_yn l = false) ["Y"; "yes"]%string) by (repeat constructor).
  split; [exact Hj|]. apply (openai_api_call_eof _ _ _ _ (stdin_world ["Y"; "yes"]%string) Hj).
Defined.

Lemma cost_ada_rounds_to_zero_witness :
  (0 <= 12499 < 12500)%Z /\ cost_of "text-ada-001" 12499 = CostDollars (0 # 100).
Proof. split; [lia | apply cost_ada_rounds_to_zero; lia]. Defined.
