(* ===== verification/Api.v ===== *)
(** * [gpt3_complete] (api.py:90-119)

    The orchestration: normalise a bare string to a one-element list,
    optionally run the cost gate, and open the progress bar.  Then, for
    each batch the [Batcher] yields, call [openai.Completion.create]
    through [openai_method_retry] with the budget the keyword arguments
    leave it (by default 5 tries, 10 seconds), extend [choices] with the
    response's choices and advance the bar.  The theorems are proved
    against the [Batcher] class, so they hold for any batcher meeting
    the contract; [chunking_unique] turns its laws into the exact
    batches, and the witnesses run the [Batch] instance.  The theorems
    of this file assume an endpoint that always answers and keyword
    arguments that leave the retry wrapper at its defaults; [Pipeline]
    drops both assumptions. *)

From Stdlib Require Import String List ZArith QArith Qround Lia.
From S2P Require Import Prelude Runtime Retry Batch Cost.
Import ListNotations.
Local Open Scope nat_scope.

(** [texts: Sequence[str]]: Python lets a bare [str] through, and
    iterating it would give its characters. *)
Inductive texts_arg : Type :=
| TextsStr (s : string)
| TextsSeq (l : list string).

(** Lines 104-106: [if isinstance(texts, str): texts = [texts]]. *)
Definition normalize_texts (t : texts_arg) : list string :=
  match t with
  | TextsStr s => [s]
  | TextsSeq l => l
  end.

(** Line 103. *)
Definition _batch_size : Z := 20.

(** ** How [**openai_completion_kwargs] bind (line 112)

    The keyword arguments of [gpt3_complete] are passed on to
    [openai_method_retry(openai.Completion.create, prompt=..., model=...,
    max_tokens=..., **openai_completion_kwargs)], not to the endpoint
    directly.  So a key [max_num_tries] or [sleep_sec] binds the retry
    wrapper's own parameter and is not forwarded; a key [prompt] repeats
    an explicit keyword and a key [openai_method] repeats the positional
    argument, and both raise [TypeError] before any call.  [model] and
    [max_tokens] cannot be keys: they bind [gpt3_complete]'s own
    parameters.  The keyword list is an association list, first binding
    first, as a Python call's keywords have one value per name. *)

(** The value of keyword [k], if given. *)
Definition kw_assoc (k : string) (kws : list (string * kwval)) : option kwval :=
  match find (fun kv => String.eqb (fst kv) k) kws with
  | Some kv => Some (snd kv)
  | None => None
  end.

(** The keywords that reach [openai_method( **openai_method_kwargs)]
    (line 50), besides [prompt], [model] and [max_tokens]. *)
Definition forwarded_kwargs (kws : list (string * kwval)) : list (string * kwval) :=
  filter (fun kv => negb (String.eqb (fst kv) "max_num_tries" || String.eqb (fst kv) "sleep_sec"))
    kws.

(** A keyword that names a parameter the call already binds.  CPython
    merges the keywords before binding, so a duplicate [prompt] is
    reported before a duplicate [openai_method]. *)
Definition kwargs_clash (kws : list (string * kwval)) : option exc :=
  match kw_assoc "prompt" kws, kw_assoc "openai_method" kws with
  | Some _, _ =>
      Some (TypeError "openai_method_retry() got multiple values for keyword argument 'prompt'")
  | None, Some _ =>
      Some (TypeError "openai_method_retry() got multiple values for argument 'openai_method'")
  | None, None => None
  end.

(** [max_num_tries] as the test [num_tries < max_num_tries] of line 48
    reads it.  An [int] [n] is below a float [q] exactly when it is below
    [ceil q]; [True] and [False] compare as [1] and [0]; a [str] or
    [None] makes the first test raise [TypeError] before any call. *)
Definition retry_max_num_tries (v : option kwval) : exc + Z :=
  match v with
  | None => inr default_max_num_tries
  | Some (KwInt z) => inr z
  | Some (KwFloat q) => inr (Qceiling q)
  | Some (KwBool b) => inr (if b then 1%Z else 0%Z)
  | Some (KwStr _) => inl (TypeError "'<' not supported between instances of 'int' and 'str'")
  | Some KwNone => inl (TypeError "'<' not supported between instances of 'int' and 'NoneType'")
  end.

(** [sleep_sec] as [time.sleep] (line 56) reads it.  A [str] or [None]
    is refused with [TypeError] here, before the first call; Python
    raises it later, at the first [time.sleep], so that a call that
    answers at once succeeds.  No theorem covers a non-numeric
    [sleep_sec]. *)
Definition retry_sleep_sec (v : option kwval) : exc + Q :=
  match v with
  | None => inr default_sleep_sec
  | Some (KwInt z) => inr (inject_Z z)
  | Some (KwFloat q) => inr q
  | Some (KwBool b) => inr (if b then 1%Q else 0%Q)
  | Some (KwStr _) => inl (TypeError "'str' object cannot be interpreted as an integer")
  | Some KwNone => inl (TypeError "'NoneType' object cannot be interpreted as an integer")
  end.

(** The retry wrapper's parameters the call of line 112 binds, or the
    [TypeError] it raises. *)
Definition retry_params (kws : list (string * kwval)) : exc + (Z * Q) :=
  match kwargs_clash kws with
  | Some e => inl e
  | None =>
      match retry_max_num_tries (kw_assoc "max_num_tries" kws),
            retry_sleep_sec (kw_assoc "sleep_sec" kws) with
      | inl e, _ => inl e
      | inr _, inl e => inl e
      | inr max_num_tries, inr sleep_sec => inr (max_num_tries, sleep_sec)
      end
  end.

Section Complete.
Context `{Batcher}.
Variable tokenize : string -> list Z.
Variable model : string.
Variable max_tokens : Z.
Variable openai_completion_kwargs : list (string * kwval).

(** Lines 112-116: the request of one batch. *)
Definition batch_request (texts_batch : list string) : request :=
  mk_request texts_batch model max_tokens (forwarded_kwargs openai_completion_kwargs).

(** Lines 112-118 once the retry wrapper's parameters are bound. *)
Definition complete_batch_with (max_num_tries : Z) (sleep_sec : Q)
    (acc : list choice) (texts_batch : list string) : M (list choice) :=
  let* response := openai_method_retry (completion_create (batch_request texts_batch))
                     max_num_tries sleep_sec in
  let acc' := acc ++ choices response in
  let* _ := progress_update (length texts_batch) in
  ret acc'.

(** Lines 111-118: the body of the [for] loop. *)
Definition complete_batch (acc : list choice) (texts_batch : list string)
  : M (list choice) :=
  match retry_params openai_completion_kwargs with
  | inl e => raise e
  | inr (max_num_tries, sleep_sec) => complete_batch_with max_num_tries sleep_sec acc texts_batch
  end.

(** Lines 90-119. *)
Definition gpt3_complete (texts0 : texts_arg) (ask_if_ok : bool) : M (list choice) :=
  let texts := normalize_texts texts0 in
  let* _ := if ask_if_ok then _openai_api_call_is_ok tokenize model texts max_tokens
            else ret tt in
  with_progress (length texts)
    (match batch texts _batch_size with
     | inl e => raise e
     | inr batches => fold_m complete_batch [] batches
     end).
End Complete.

(** Bound parameters: the loop body is the call with that budget. *)
Lemma complete_batch_params model max_tokens kwargs max_num_tries sleep_sec :
  retry_params kwargs = inr (max_num_tries, sleep_sec) ->
  complete_batch model max_tokens kwargs
  = complete_batch_with model max_tokens kwargs max_num_tries sleep_sec.
Proof. intros E. unfold complete_batch. rewrite E. reflexivity. Qed.

(** A keyword that cannot be bound raises before any event. *)
Lemma complete_batch_rejected model max_tokens kwargs e acc b w :
  retry_params kwargs = inl e -> complete_batch model max_tokens kwargs acc b w = (inl e, w).
Proof. intros E. unfold complete_batch. rewrite E. reflexivity. Qed.

(** What the binding raises is always a [TypeError]. *)
Lemma retry_params_type_error kws e :
  retry_params kws = inl e -> exists msg, e = TypeError msg.
Proof.
  unfold retry_params, kwargs_clash. intros H.
  destruct (kw_assoc "prompt" kws); [injection H as <-; eauto|].
  destruct (kw_assoc "openai_method" kws); [injection H as <-; eauto|].
  destruct (kw_assoc "max_num_tries" kws) as [[]|], (kw_assoc "sleep_sec" kws) as [[]|];
    cbn in H; try discriminate; injection H as <-; eauto.
Qed.

(** ** An endpoint that answers every prompt *)

(** [answers_from j f ps]: the choices of a batch [ps] whose first prompt
    has index [j] in the batch; [f j p] answers prompt [p] at index [j]. *)
Fixpoint answers_from (j : nat) (f : nat -> string -> choice) (ps : list string)
  : list choice :=
  match ps with
  | [] => []
  | p :: ps' => f j p :: answers_from (S j) f ps'
  end.

(** The endpoint never fails and answers each request by [ans] applied
    to its prompt list. *)
Definition answers_by (ep : nat -> request -> exc + response)
           (ans : list string -> list choice) : Prop :=
  forall i r, ep i r = inr (mk_response (ans (req_prompt r))).

(** ... and answers the batch prompt by prompt. *)
Definition answers_all (ep : nat -> request -> exc + response)
           (f : nat -> string -> choice) : Prop :=
  answers_by ep (answers_from 0 f).

(** [f (i mod s) p] for the [i]-th prompt [p] of the whole input: the
    answers when batches of [s] restart the index at 0. *)
Fixpoint label_mod (s i : nat) (f : nat -> string -> choice) (l : list string)
  : list choice :=
  match l with
  | [] => []
  | p :: l' => f (i mod s) p :: label_mod s (S i) f l'
  end.

Section Labels.
Variable f : nat -> string -> choice.

Lemma label_mod_app s i l1 l2 :
  label_mod s i f (l1 ++ l2) = label_mod s i f l1 ++ label_mod s (i + length l1) f l2.
Proof.
  revert i. induction l1 as [|p l1 IH]; intros i; simpl.
  - rewrite Nat.add_0_r. reflexivity.
  - rewrite IH. do 3 f_equal. lia.
Qed.

Lemma label_mod_period s i l : s <> 0 -> label_mod s (i + s) f l = label_mod s i f l.
Proof.
  intros Hs. revert i. induction l as [|p l IH]; intros i; simpl; [reflexivity|].
  replace (i + s) with (i + 1 * s) by lia. rewrite Nat.Div0.mod_add.
  replace (S (i + 1 * s)) with (S i + s) by lia. rewrite IH. reflexivity.
Qed.

Lemma answers_from_small s i l :
  i + length l <= s -> answers_from i f l = label_mod s i f l.
Proof.
  revert i. induction l as [|p l IH]; intros i Hl; simpl in *; [reflexivity|].
  rewrite Nat.mod_small by lia. rewrite IH by lia. reflexivity.
Qed.

(** Answering batch by batch labels each text by its index modulo the
    batch size. *)
Lemma concat_answers_chunks k l :
  concat (map (answers_from 0 f) (chunks k l)) = label_mod (S k) 0 f l.
Proof.
  induction l as [|l Hl IH] using (chunks_rect_len k); [rewrite chunks_nil; reflexivity|].
  rewrite chunks_cons by exact Hl. cbn [map concat]. rewrite IH.
  rewrite <- (firstn_skipn (S k) l) at 3. rewrite label_mod_app.
  rewrite (answers_from_small (S k)) by (rewrite length_firstn; lia). f_equal.
  destruct (skipn (S k) l) as [|y ys] eqn:E; [reflexivity|].
  rewrite length_firstn_full.
  - rewrite Nat.add_0_l, <- (Nat.add_0_l (S k)), label_mod_period by lia. reflexivity.
  - assert (0 < length (skipn (S k) l)) by (rewrite E; simpl; lia).
    rewrite length_skipn in H. lia.
Qed.

Lemma nth_error_label_mod s i l j :
  nth_error (label_mod s i f l) j = option_map (f ((i + j) mod s)) (nth_error l j).
Proof.
  revert i j. induction l as [|p l IH]; intros i [|j]; simpl; try reflexivity.
  - rewrite Nat.add_0_r. reflexivity.
  - rewrite IH. do 3 f_equal. lia.
Qed.

Lemma length_label_mod s i l : length (label_mod s i f l) = length l.
Proof. revert i. induction l; intros i; simpl; auto. Qed.
End Labels.

Section CompleteTheorems.
Context `{Batcher}.
Variable tokenize : string -> list Z.
Variable model : string.
Variable max_tokens : Z.
Variable kwargs : list (string * kwval).

#[local] Abbreviation req := (batch_request model max_tokens kwargs).
#[local] Abbreviation complete := (gpt3_complete tokenize model max_tokens kwargs).

(** The theorems below about answered runs take the keyword arguments to
    leave the retry wrapper at its defaults and to raise nothing: no key
    [max_num_tries], [sleep_sec], [prompt] or [openai_method] (or the
    first two at the default values).  [Pipeline] covers any budget. *)
Hypothesis retry_defaults :
  retry_params kwargs = inr (default_max_num_tries, default_sleep_sec).

(** The events of one successful batch: the call, then the bar. *)
Definition batch_events (b : list string) : list event :=
  [EvCall (req b); EvProgressUpdate (length b)].

Lemma complete_batch_answers ans acc b w :
  answers_by (w_endpoint w) ans ->
  complete_batch model max_tokens kwargs acc b w
  = (inr (acc ++ ans b),
     mk_world (w_endpoint w) (S (w_calls w)) (w_stdin w) (w_trace w ++ batch_events b)).
Proof.
  intros Hf. unfold complete_batch. rewrite retry_defaults. unfold complete_batch_with.
  rewrite (bind_inr _ _ _ _ _
    (retry_success (req b) default_max_num_tries default_sleep_sec [] _ w
       (fun j e He => match j, He with O, He | S _, He => ltac:(discriminate) end)
       ltac:(rewrite Nat.add_0_r; apply Hf) ltac:(reflexivity) ltac:(reflexivity))).
  unfold after_fails, progress_update. rewrite (bind_inr _ _ _ _ _ (emit_run _ _)).
  unfold add_events. cbn. rewrite <- !app_assoc. do 3 f_equal. lia.
Qed.

Lemma fold_batches_answers ans bs acc w :
  answers_by (w_endpoint w) ans ->
  fold_m (complete_batch model max_tokens kwargs) acc bs w
  = (inr (acc ++ concat (map ans bs)),
     mk_world (w_endpoint w) (w_calls w + length bs) (w_stdin w)
              (w_trace w ++ concat (map batch_events bs))).
Proof.
  revert acc w. induction bs as [|b bs IH]; intros acc w Hf; simpl.
  - rewrite !app_nil_r, Nat.add_0_r. destruct w; reflexivity.
  - rewrite (bind_inr _ _ _ _ _ (complete_batch_answers ans acc b w Hf)).
    rewrite IH by exact Hf. simpl.
    rewrite <- !app_assoc. do 3 f_equal. lia.
Qed.

Lemma batch_20 (l : list string) : batch l _batch_size = inr (chunks 19 l).
Proof.
  destruct (batch_total _ l _batch_size ltac:(reflexivity)) as [bs Hbs].
  rewrite Hbs. f_equal.
  apply chunking_unique.
  - exact (batch_concat _ _ _ _ Hbs).
  - exact (batch_full _ _ _ _ Hbs).
  - exact (batch_nonempty _ _ _ _ Hbs).
  - exact (batch_bounded _ _ _ _ Hbs).
Qed.

(** Without the gate, the run is the [for] loop inside the bar. *)
Lemma complete_nogate_run texts w :
  complete (TextsSeq texts) false w
  = (fst (fold_m (complete_batch model max_tokens kwargs) [] (chunks 19 texts)
            (add_events [EvProgressOpen (length texts)] w)),
     add_events [EvProgressClose]
       (snd (fold_m (complete_batch model max_tokens kwargs) [] (chunks 19 texts)
               (add_events [EvProgressOpen (length texts)] w)))).
Proof.
  unfold gpt3_complete. cbn [normalize_texts].
  rewrite bind_ret_l, with_progress_run, batch_20. reflexivity.
Qed.

Lemma complete_answers_by ans texts w :
  answers_by (w_endpoint w) ans ->
  complete (TextsSeq texts) false w
  = (inr (concat (map ans (chunks 19 texts))),
     mk_world (w_endpoint w) (w_calls w + length (chunks 19 texts)) (w_stdin w)
       (w_trace w ++ EvProgressOpen (length texts)
                  :: concat (map batch_events (chunks 19 texts)) ++ [EvProgressClose])).
Proof.
  intros Hf. rewrite complete_nogate_run, (fold_batches_answers ans) by exact Hf.
  cbn. unfold add_events. cbn. rewrite <- !app_assoc. reflexivity.
Qed.

Lemma complete_answers f texts w :
  answers_all (w_endpoint w) f ->
  complete (TextsSeq texts) false w
  = (inr (concat (map (answers_from 0 f) (chunks 19 texts))),
     mk_world (w_endpoint w) (w_calls w + length (chunks 19 texts)) (w_stdin w)
       (w_trace w ++ EvProgressOpen (length texts)
                  :: concat (map batch_events (chunks 19 texts)) ++ [EvProgressClose])).
Proof. apply complete_answers_by. Qed.

(** C1: with keyword arguments that leave the retry wrapper at its
    defaults, and without the gate, on an endpoint that answers every prompt with
    [f], [gpt3_complete] returns the per-batch choices concatenated in
    batch order.  The batches are the consecutive slices of 20 texts.
    The trace opens the bar at [len(texts)], makes one call and one
    update per batch, and closes the bar. *)
Theorem gpt3_complete_answers f texts w :
  answers_all (w_endpoint w) f ->
  complete (TextsSeq texts) false w
  = (inr (concat (map (answers_from 0 f) (chunks 19 texts))),
     mk_world (w_endpoint w) (w_calls w + length (chunks 19 texts)) (w_stdin w)
       (w_trace w ++ EvProgressOpen (length texts)
                  :: concat (map batch_events (chunks 19 texts)) ++ [EvProgressClose])).
Proof. intros; eapply complete_answers; eassumption. Qed.

Lemma calls_of_batches bs : calls_of (concat (map batch_events bs)) = map req bs.
Proof. induction bs as [|b bs IH]; simpl; [reflexivity|]. rewrite IH. reflexivity. Qed.

Lemma progress_of_batches bs :
  progress_of (concat (map batch_events bs)) = map (@length string) bs.
Proof. induction bs as [|b bs IH]; simpl; [reflexivity|]. rewrite IH. reflexivity. Qed.

(** C2: under the same conditions, the result is index-aligned with the input: one choice per
    text, and the [i]-th is [f] applied to the [i]-th text at index
    [i mod 20].  The endpoint's per-batch index restarts in every
    batch. *)
Theorem gpt3_complete_aligned f texts w :
  answers_all (w_endpoint w) f ->
  exists cs, fst (complete (TextsSeq texts) false w) = inr cs /\
    length cs = length texts /\
    forall i t, nth_error texts i = Some t -> nth_error cs i = Some (f (i mod 20) t).
Proof.
  intros Hf. rewrite (complete_answers f texts w Hf), concat_answers_chunks.
  eexists. split; [reflexivity|]. split; [apply length_label_mod|].
  intros i t Ht. rewrite nth_error_label_mod, Ht. reflexivity.
Qed.

(** C3: under the same conditions, the remote calls are one per batch, in order, with the
    consecutive slices of 20 texts as prompts.  There are
    [ceil(len(texts) / 20)] of them. *)
Theorem gpt3_complete_calls f texts w :
  answers_all (w_endpoint w) f ->
  exists t, w_trace (snd (complete (TextsSeq texts) false w)) = w_trace w ++ t /\
    map req_prompt (calls_of t) = chunks 19 texts /\
    length (calls_of t) = (length texts + 19) / 20.
Proof.
  intros Hf. rewrite (complete_answers f texts w Hf). eexists. split; [reflexivity|].
  cbn [calls_of]. rewrite calls_of_app, calls_of_batches. cbn [calls_of]. rewrite app_nil_r, map_map.
  split; [apply map_id|]. rewrite length_map, chunks_length. f_equal. lia.
Qed.

(** C16: under the same conditions, the progress bar is opened at [len(texts)] and advanced once
    per batch by the batch's size; the advances sum to [len(texts)]. *)
Theorem gpt3_complete_progress f texts w :
  answers_all (w_endpoint w) f ->
  exists t, w_trace (snd (complete (TextsSeq texts) false w))
            = w_trace w ++ EvProgressOpen (length texts) :: t ++ [EvProgressClose] /\
    progress_of t = map (@length string) (chunks 19 texts) /\
    list_sum (progress_of t) = length texts.
Proof.
  intros Hf. rewrite (complete_answers f texts w Hf). eexists. split; [reflexivity|].
  rewrite progress_of_batches. split; [reflexivity|].
  rewrite <- length_concat, chunks_concat. reflexivity.
Qed.

(** C17: under the same conditions, a bare string is one prompt, not one prompt per character:
    one call with the one-element prompt list, and one choice. *)
Theorem gpt3_complete_bare_string f s w :
  answers_all (w_endpoint w) f ->
  complete (TextsStr s) false w
  = (inr [f 0 s],
     mk_world (w_endpoint w) (S (w_calls w)) (w_stdin w)
       (w_trace w ++ [EvProgressOpen 1; EvCall (req [s]); EvProgressUpdate 1;
                      EvProgressClose])).
Proof.
  intros Hf. change (complete (TextsStr s) false) with (complete (TextsSeq [s]) false).
  rewrite (complete_answers f [s] w Hf).
  assert (Hc : chunks 19 [s] = [[s]])
    by (rewrite chunks_cons by discriminate; cbn [skipn firstn]; rewrite chunks_nil; reflexivity).
  rewrite Hc. simpl.
  rewrite Nat.add_1_r. reflexivity.
Qed.

(** C8: declining the cost prompt raises [UserCanceled] before any
    remote call: the bar is never opened and the call counter is
    unchanged. *)
Theorem gpt3_complete_declined texts junk rest w :
  Forall (fun l => is_yn l = false) junk ->
  w_stdin w = junk ++ "n"%string :: rest ->
  complete (TextsSeq texts) true w
  = (inl UserCanceled, after_prompts tokenize model texts max_tokens w rest (S (length junk))).
Proof.
  intros Hj Hin. unfold gpt3_complete. cbn [normalize_texts].
  erewrite bind_inl; [reflexivity|]. apply gate_declined; assumption.
Qed.
(** Whatever [Batcher] implements the contract, the batches
    [gpt3_complete] iterates over at [_batch_size] are exactly the
    consecutive slices of 20 texts. *)
Theorem batches_determined (l : list string) : batch l _batch_size = inr (chunks 19 l).
Proof. apply batch_20. Qed.

(** C9: under the same conditions, the prompts of the calls, in order, concatenate back to the
    input texts: no text is dropped, duplicated or reordered. *)
Theorem gpt3_complete_prompts_roundtrip f texts w :
  answers_all (w_endpoint w) f ->
  exists t, w_trace (snd (complete (TextsSeq texts) false w)) = w_trace w ++ t /\
    concat (map req_prompt (calls_of t)) = texts /\
    Forall (fun ps => length ps = 20) (removelast (map req_prompt (calls_of t))).
Proof.
  intros Hf. rewrite (complete_answers f texts w Hf). eexists. split; [reflexivity|].
  cbn [calls_of]. rewrite calls_of_app, calls_of_batches. cbn [calls_of].
  rewrite app_nil_r, map_map, map_id. split; [apply chunks_concat | apply chunks_full].
Qed.
End CompleteTheorems.

(** C11: [batch.constant(texts, _batch_size)], the generator of line
    111, yields the reference batches [chunks 19 texts]. *)
Theorem constant_at_batch_size (texts : list string) :
  constant texts _batch_size = inr (chunks 19 texts).
Proof. unfold constant, _batch_size. simpl. f_equal. apply constant_slices_chunks. Qed.

(** ** Witnesses, with the [Batch] instance of [batch.constant] *)

Definition ex_answer (j : nat) (p : string) : choice := mk_choice j p "length".

Definition answering_endpoint (f : nat -> string -> choice) : nat -> request -> exc + response :=
  fun _ r => inr (mk_response (answers_from 0 f (req_prompt r))).

Definition ex_world : world := mk_world (answering_endpoint ex_answer) 0 [] [].

Lemma answering_endpoint_answers f : answers_all (answering_endpoint f) f.
Proof. intros i r. reflexivity. Qed.

Definition ex_texts : list string := repeat "review"%string 45.

(** One keyword argument the endpoint takes, forwarded as it is. *)
Definition ex_kwargs : list (string * kwval) := [("temperature"%string, KwInt 0)].

#[local] Abbreviation ex_complete :=
  (gpt3_complete ex_tokenize "text-ada-001" 0 ex_kwargs).

Lemma gpt3_complete_answers_witness :
  retry_params ex_kwargs = inr (default_max_num_tries, default_sleep_sec) /\
  answers_all (w_endpoint ex_world) ex_answer /\
  ex_complete (TextsSeq ["a"; "b"]%string) false ex_world
  = (inr (concat (map (answers_from 0 ex_answer) (chunks 19 ["a"; "b"]%string))),
     mk_world (w_endpoint ex_world) (w_calls ex_world + length (chunks 19 ["a"; "b"]%string))
       (w_stdin ex_world)
       (w_trace ex_world ++ EvProgressOpen 2
          :: concat (map (batch_events "text-ada-001" 0 ex_kwargs) (chunks 19 ["a"; "b"]%string))
          ++ [EvProgressClose])).
Proof.
  split; [reflexivity|]. split; [apply answering_endpoint_answers|].
  apply gpt3_complete_answers; solve [reflexivity | apply answering_endpoint_answers].
Defined.

Lemma gpt3_complete_aligned_witness :
  retry_params ex_kwargs = inr (default_max_num_tries, default_sleep_sec) /\
  answers_all (w_endpoint ex_world) ex_answer /\
  exists cs, fst (ex_complete (TextsSeq ex_texts) false ex_world) = inr cs /\
    length cs = length ex_texts /\
    forall i t, nth_error ex_texts i = Some t -> nth_error cs i = Some (ex_answer (i mod 20) t).
Proof.
  split; [reflexivity|]. split; [apply answering_endpoint_answers|].
  apply gpt3_complete_aligned; solve [reflexivity | apply answering_endpoint_answers].
Defined.

Lemma gpt3_complete_prompts_roundtrip_witness :
  retry_params ex_kwargs = inr (default_max_num_tries, default_sleep_sec) /\
  answers_all (w_endpoint ex_world) ex_answer /\
  exists t, w_trace (snd (ex_complete (TextsSeq ex_texts) false ex_world)) = w_trace ex_world ++ t /\
    concat (map req_prompt (calls_of t)) = ex_texts /\
    Forall (fun ps => length ps = 20) (removelast (map req_prompt (calls_of t))).
Proof.
  split; [reflexivity|]. split; [apply answering_endpoint_answers|].
  apply (gpt3_complete_prompts_roundtrip ex_tokenize "text-ada-001" 0 ex_kwargs eq_refl ex_answer).
  apply answering_endpoint_answers.
Defined.

(** 45 texts make 3 calls, of 20, 20 and 5 prompts. *)
Lemma gpt3_complete_calls_witness :
  retry_params ex_kwargs = inr (default_max_num_tries, default_sleep_sec) /\
  answers_all (w_endpoint ex_world) ex_answer /\
  exists t, w_trace (snd (ex_complete (TextsSeq ex_texts) false ex_world)) = w_trace ex_world ++ t /\
    map req_prompt (calls_of t) = chunks 19 ex_texts /\
    length (calls_of t) = (length ex_texts + 19) / 20.
Proof.
  split; [reflexivity|]. split; [apply answering_endpoint_answers|].
  apply (gpt3_complete_calls ex_tokenize "text-ada-001" 0 ex_kwargs eq_refl ex_answer).
  apply answering_endpoint_answers.
Defined.

Example chunks_45 : map (@length string) (chunks 19 ex_texts) = [20; 20; 5].
Proof. reflexivity. Qed.

Lemma gpt3_complete_progress_witness :
  retry_params ex_kwargs = inr (default_max_num_tries, default_sleep_sec) /\
  answers_all (w_endpoint ex_world) ex_answer /\
  exists t, w_trace (snd (ex_complete (TextsSeq ex_texts) false ex_world))
            = w_trace ex_world ++ EvProgressOpen (length ex_texts) :: t ++ [EvProgressClose] /\
    progress_of t = map (@length string) (chunks 19 ex_texts) /\
    list_sum (progress_of t) = length ex_texts.
Proof.
  split; [reflexivity|]. split; [apply answering_endpoint_answers|].
  apply (gpt3_complete_progress ex_tokenize "text-ada-001" 0 ex_kwargs eq_refl ex_answer).
  apply answering_endpoint_answers.
Defined.

Lemma gpt3_complete_bare_string_witness :
  retry_params ex_kwargs = inr (default_max_num_tries, default_sleep_sec) /\
  answers_all (w_endpoint ex_world) ex_answer /\
  ex_complete (TextsStr "great"%string) false ex_world
  = (inr [ex_answer 0 "great"%string],
     mk_world (w_endpoint ex_world) (S (w_calls ex_world)) (w_stdin ex_world)
       (w_trace ex_world ++ [EvProgressOpen 1;
          EvCall (batch_request "text-ada-001" 0 ex_kwargs ["great"%string]);
          EvProgressUpdate 1; EvProgressClose])).
Proof.
  split; [reflexivity|]. split; [apply answering_endpoint_answers|].
  apply gpt3_complete_bare_string; solve [reflexivity | apply answering_endpoint_answers].
Defined.

Lemma gpt3_complete_declined_witness :
  let w := mk_world (answering_endpoint ex_answer) 0 ["n"%string] [] in
  Forall (fun l => is_yn l = false) ([] : list string) /\
  ex_complete (TextsSeq ex_texts) true w
  = (inl UserCanceled, after_prompts ex_tokenize "text-ada-001" ex_texts 0 w [] 1).
Proof.
  split; [constructor|].
  apply (gpt3_complete_declined _ _ _ _ _ [] []); [constructor | reflexivity].
Defined.

