(* ===== verification/Pipeline.v ===== *)
(** * The whole pipeline against an arbitrary endpoint (api.py:90-119)

    [Api] proves what [gpt3_complete] returns when the endpoint always
    answers.  This file drops that assumption.  For any endpoint it shows
    which calls are made, in which order, and that the progress bar is
    always closed (safety), for any retry budget the keyword arguments
    bind.  It then shows that outages shorter than the budget do not
    change the result (liveness), what an outage longer than the budget
    does (error), that a keyword argument the call cannot bind raises
    [TypeError] before any call, and how many choices come back when a
    call answers each prompt with several ([n > 1]).  Last, it
    puts the gate and the pipeline together: confirming only adds the
    prompts, and the estimate shown is the sum of the estimates of the
    requests sent.  The inductive [answered] is the spec's contract for
    the result, and [gpt3_complete_refines_spec] shows the code refines
    it for any endpoint. *)

From Stdlib Require Import String List ZArith QArith Lia.
From S2P Require Import Prelude Runtime Retry Batch Cost Prompt Api.
Import ListNotations.
Local Open Scope nat_scope.

(** The calls of a run that tried the batches [bs] with [ks] calls each:
    [k] copies of the request of each batch, batch after batch. *)
Definition planned_calls (req : list string -> request) (bs : list (list string))
           (ks : list nat) : list request :=
  flat_map (fun bk => repeat (req (fst bk)) (snd bk)) (combine bs ks).

(** The orchestration contract of the spec: the result is the
    concatenation, in chunk order, of the choices of one answer per
    chunk, each answer from a call later than the previous one.
    [answered ep req i bs cs]: the chunks [bs], asked from call index
    [i] on, give the result [cs]. *)
Inductive answered (ep : nat -> request -> exc + response) (req : list string -> request)
  : nat -> list (list string) -> list choice -> Prop :=
| answered_nil i : answered ep req i [] []
| answered_cons i j b bs resp cs :
    i <= j -> ep j (req b) = inr resp -> answered ep req (S j) bs cs ->
    answered ep req i (b :: bs) (choices resp ++ cs).

#[export] Hint Constructors answered : lmc_trace.

Section Shape.
Context `{Batcher}.
Variable tokenize : string -> list Z.
Variable model : string.
Variable max_tokens : Z.
Variable kwargs : list (string * kwval).
(** The retry wrapper's parameters as the keyword arguments bind them
    (5 tries and 10 seconds unless they set them), with at least one
    try.  The refinement theorem at the end of the section does not use
    these hypotheses. *)
Variable max_num_tries : Z.
Variable sleep_sec : Q.
Hypothesis retry_bound : retry_params kwargs = inr (max_num_tries, sleep_sec).
Hypothesis tries_pos : (0 < max_num_tries)%Z.

#[local] Abbreviation req := (batch_request model max_tokens kwargs).
#[local] Abbreviation complete := (gpt3_complete tokenize model max_tokens kwargs).
#[local] Abbreviation budget := (Z.to_nat max_num_tries).

Lemma retry_calls_budget b w :
  exists k, 1 <= k <= budget /\
    calls_shape (req b) k w (snd (openai_method_retry (completion_create (req b)) max_num_tries sleep_sec w)).
Proof.
  destruct (retry_loop_calls (req b) max_num_tries sleep_sec budget 0 None w) as (k & Hk & HS).
  exists k. split; [|exact HS]. revert Hk. destruct (Z.ltb_spec 0 max_num_tries); lia.
Qed.

(** One iteration of the [for] loop, for any endpoint: one to
    [max_num_tries] calls with the batch's request, and one bar update
    if the batch succeeded. *)
Lemma complete_batch_shape acc b w :
  w_endpoint (snd (complete_batch model max_tokens kwargs acc b w)) = w_endpoint w /\
  exists k t, 1 <= k <= budget /\
    w_trace (snd (complete_batch model max_tokens kwargs acc b w)) = w_trace w ++ t /\
    calls_of t = repeat (req b) k /\
    progress_of t = match fst (complete_batch model max_tokens kwargs acc b w) with
                    | inr _ => [length b]
                    | inl _ => []
                    end.
Proof.
  rewrite (complete_batch_params _ _ _ _ _ retry_bound).
  destruct (retry_calls_budget b w) as (k & Hk & E & t & T & C & P).
  unfold complete_batch_with, bind.
  destruct (openai_method_retry _ _ _ w) as [[e|v] w1]; simpl in E, T.
  - split; [exact E|]. exists k, t. auto.
  - split; [exact E|]. exists k, (t ++ [EvProgressUpdate (length b)]). cbn.
    rewrite T, app_assoc, calls_of_app, progress_of_app, C, P. simpl.
    rewrite app_nil_r. auto.
Qed.

(** The [for] loop over the batches [bs], for any endpoint: the calls
    go batch after batch, one to [max_num_tries] per batch.  If the loop finishes,
    every batch was tried and counted on the bar.  If it raises, the last
    batch tried is the one that failed, and the bar counts the ones
    before it. *)
Lemma fold_batches_shape bs acc w res w' :
  fold_m (complete_batch model max_tokens kwargs) acc bs w = (res, w') ->
  w_endpoint w' = w_endpoint w /\
  exists ks t, length ks <= length bs /\ Forall (fun k => 1 <= k <= budget) ks /\
    w_trace w' = w_trace w ++ t /\
    calls_of t = planned_calls req bs ks /\
    match res with
    | inr _ => length ks = length bs /\ progress_of t = map (@length string) bs
    | inl _ => ks <> [] /\ progress_of t = map (@length string) (firstn (length ks - 1) bs)
    end.
Proof.
  revert acc w res w'. induction bs as [|b bs IH]; intros acc w res w' Hrun.
  - injection Hrun as <- <-. split; [reflexivity|]. exists [], [].
    rewrite app_nil_r. repeat split; auto.
  - cbn [fold_m] in Hrun. unfold bind in Hrun.
    destruct (complete_batch_shape acc b w) as [E1 (k & t1 & Hk & T1 & C1 & P1)].
    destruct (complete_batch model max_tokens kwargs acc b w) as [[e|acc'] w1].
    + injection Hrun as <- <-. split; [exact E1|]. exists [k], t1. simpl in *.
      unfold planned_calls. simpl.
      replace (combine bs (@nil nat)) with (@nil (list string * nat)) by (destruct bs; reflexivity).
      simpl. rewrite !app_nil_r. repeat split; auto with arith; try lia; try discriminate.
    + destruct (IH acc' w1 res w' Hrun) as [E2 (ks & t2 & Hl & Hks & T2 & C2 & P2)].
      simpl in E1, T1, P1. split; [congruence|]. exists (k :: ks), (t1 ++ t2). simpl.
      rewrite T2, T1, <- app_assoc, calls_of_app, progress_of_app, C1, C2, P1.
      repeat split; auto with arith.
      destruct res as [e|cs]; destruct P2 as [Hne P2]; rewrite P2.
      * split; [discriminate|]. destruct ks as [|k' ks]; [contradiction|].
        simpl. rewrite Nat.sub_0_r. reflexivity.
      * split; [lia|reflexivity].
Qed.

(** The whole run without the gate, for any endpoint. *)
Lemma complete_shape texts w :
  exists ks t,
    w_trace (snd (complete (TextsSeq texts) false w))
    = w_trace w ++ EvProgressOpen (length texts) :: t ++ [EvProgressClose] /\
    calls_of t = planned_calls req (chunks 19 texts) ks /\
    length ks <= length (chunks 19 texts) /\ Forall (fun k => 1 <= k <= budget) ks /\
    match fst (complete (TextsSeq texts) false w) with
    | inr _ => length ks = length (chunks 19 texts) /\
               progress_of t = map (@length string) (chunks 19 texts)
    | inl _ => ks <> [] /\
               progress_of t = map (@length string) (firstn (length ks - 1) (chunks 19 texts))
    end.
Proof.
  rewrite complete_nogate_run. destruct (fold_m _ [] _ _) as [res w'] eqn:Hrun.
  destruct (fold_batches_shape _ _ _ _ _ Hrun) as [_ (ks & t & Hl & Hks & T & C & P)].
  exists ks, t. simpl. rewrite T. simpl. rewrite <- !app_assoc. auto.
Qed.

(** C24: for any endpoint, outages and errors included, and keyword
    arguments that bind [max_num_tries >= 1] (5 by default), the remote
    calls of [gpt3_complete] go batch after batch, in the order of the
    slices of 20 texts.  Each batch tried gets one to [max_num_tries]
    calls with its own prompts, and all of them happen inside the progress bar, which is
    closed at the end.  A run that returns has tried every batch and
    advanced the bar by each batch's size.  A run that raises stopped at
    the first batch whose retries failed; the bar counts the batches
    before it. *)
Theorem gpt3_complete_call_order texts w :
  exists ks t,
    w_trace (snd (complete (TextsSeq texts) false w))
    = w_trace w ++ EvProgressOpen (length texts) :: t ++ [EvProgressClose] /\
    calls_of t = planned_calls req (chunks 19 texts) ks /\
    length ks <= length (chunks 19 texts) /\ Forall (fun k => 1 <= k <= budget) ks /\
    match fst (complete (TextsSeq texts) false w) with
    | inr _ => length ks = length (chunks 19 texts) /\
               progress_of t = map (@length string) (chunks 19 texts)
    | inl _ => ks <> [] /\
               progress_of t = map (@length string) (firstn (length ks - 1) (chunks 19 texts))
    end.
Proof. apply complete_shape. Qed.

(** ** Every call is accounted for *)

(** The run raised an error the retry wrapper does not retry. *)
Definition fatal {A} (res : exc + A) : nat :=
  match res with
  | inl e => if is_retryable e then 0 else 1
  | inr _ => 0
  end.

Lemma complete_batch_balance acc b w :
  exists t, w_trace (snd (complete_batch model max_tokens kwargs acc b w)) = w_trace w ++ t /\
    count_if is_call t
    = count_if is_sleep t + length (progress_of t)
      + fatal (fst (complete_batch model max_tokens kwargs acc b w)).
Proof.
  rewrite (complete_batch_params _ _ _ _ _ retry_bound).
  destruct (retry_loop_balance (req b) max_num_tries sleep_sec budget 0 None w
              ltac:(split; lia)) as (t & T & B).
  destruct (retry_calls_budget b w) as (k & _ & _ & t' & T' & _ & P).
  unfold openai_method_retry in T'. rewrite T in T'. apply app_inv_head in T'. subst t'.
  unfold complete_batch_with, openai_method_retry, bind.
  destruct (retry_loop _ _ _ budget 0 None w) as [[e|v] w1]; simpl in T, B.
  - exists t. rewrite P. split; [exact T|]. simpl in *. destruct (is_retryable e); lia.
  - exists (t ++ [EvProgressUpdate (length b)]). cbn. rewrite T, app_assoc. split; [reflexivity|].
    rewrite !count_if_app, progress_of_app, P. simpl. unfold count_if at 2 4. simpl. lia.
Qed.

Lemma fold_batches_balance bs acc w res w' :
  fold_m (complete_batch model max_tokens kwargs) acc bs w = (res, w') ->
  exists t, w_trace w' = w_trace w ++ t /\
    count_if is_call t = count_if is_sleep t + length (progress_of t) + fatal res.
Proof.
  revert acc w. induction bs as [|b bs IH]; intros acc w Hrun.
  - injection Hrun as <- <-. exists []. rewrite app_nil_r. auto.
  - cbn [fold_m] in Hrun. unfold bind in Hrun.
    destruct (complete_batch_balance acc b w) as (t1 & T1 & B1).
    destruct (complete_batch model max_tokens kwargs acc b w) as [[e|acc'] w1]; simpl in T1, B1.
    + injection Hrun as <- <-. exists t1. auto.
    + destruct (IH acc' w1 Hrun) as (t2 & T2 & B2). exists (t1 ++ t2).
      rewrite T2, T1, <- app_assoc. split; [reflexivity|].
      rewrite !count_if_app, progress_of_app, length_app. lia.
Qed.

(** C32: for any endpoint, and keyword arguments that bind
    [max_num_tries >= 1] (5 by default), every remote call of
    [gpt3_complete] is accounted for.  It is followed by a sleep and a retry, or it answered
    and the bar advanced by its batch, or it raised the non-retryable
    error that ended the run.  So the calls in the bar are the sleeps,
    plus the bar updates, plus one if the run ended on such an error. *)
Theorem gpt3_complete_balance texts w :
  exists t,
    w_trace (snd (complete (TextsSeq texts) false w))
    = w_trace w ++ EvProgressOpen (length texts) :: t ++ [EvProgressClose] /\
    count_if is_call t
    = count_if is_sleep t + length (progress_of t) + fatal (fst (complete (TextsSeq texts) false w)).
Proof.
  rewrite complete_nogate_run. destruct (fold_m _ [] _ _) as [res w'] eqn:Hrun.
  destruct (fold_batches_balance _ _ _ _ _ Hrun) as (t & T & B).
  exists t. simpl. rewrite T. simpl. rewrite <- !app_assoc. auto.
Qed.

End Shape.

(** ** Refinement of the orchestration contract *)

Section Refinement.
Context `{Batcher}.
Variable tokenize : string -> list Z.
Variable model : string.
Variable max_tokens : Z.
Variable kwargs : list (string * kwval).

#[local] Abbreviation req := (batch_request model max_tokens kwargs).
#[local] Abbreviation complete := (gpt3_complete tokenize model max_tokens kwargs).

(** A batch that returns has appended the choices of its last call. *)
Lemma complete_batch_answer acc b w acc' w' :
  complete_batch model max_tokens kwargs acc b w = (inr acc', w') ->
  exists i resp, w_calls w <= i /\ w_calls w' = S i /\
    w_endpoint w i (req b) = inr resp /\ acc' = acc ++ choices resp /\
    w_endpoint w' = w_endpoint w.
Proof.
  unfold complete_batch. destruct (retry_params kwargs) as [e|[m s]]; [discriminate|].
  unfold complete_batch_with, openai_method_retry, bind.
  destruct (retry_loop _ _ _ _ 0 None w) as [[e|v] w1] eqn:Er; [discriminate|].
  intros Hrun. injection Hrun as <- <-.
  destruct (retry_loop_answer _ _ _ _ _ _ _ _ _ Er) as (i & Hi & Hc & Hv & He).
  exists i, v. cbn. auto.
Qed.

Lemma fold_batches_answered bs acc w cs w' :
  fold_m (complete_batch model max_tokens kwargs) acc bs w = (inr cs, w') ->
  exists cs', cs = acc ++ cs' /\ answered (w_endpoint w) req (w_calls w) bs cs'.
Proof.
  revert acc w. induction bs as [|b bs IH]; intros acc w Hrun.
  - injection Hrun as <- _. exists []. rewrite app_nil_r. auto with lmc_trace.
  - cbn [fold_m] in Hrun. unfold bind in Hrun.
    destruct (complete_batch model max_tokens kwargs acc b w) as [[e|acc1] w1] eqn:Eb;
      [discriminate|].
    destruct (complete_batch_answer _ _ _ _ _ Eb) as (i & resp & Hi & Hc & Hv & -> & He).
    destruct (IH _ _ Hrun) as (cs' & -> & Ha). rewrite He, Hc in Ha.
    exists (choices resp ++ cs'). rewrite app_assoc. eauto with lmc_trace.
Qed.

Lemma complete_answered texts w cs :
  fst (complete (TextsSeq texts) false w) = inr cs ->
  answered (w_endpoint w) req (w_calls w) (chunks 19 texts) cs.
Proof.
  rewrite complete_nogate_run. destruct (fold_m _ [] _ _) as [res w'] eqn:Hrun.
  intros Hres. simpl in Hres. subst res.
  destruct (fold_batches_answered _ _ _ _ _ Hrun) as (cs' & -> & Ha). exact Ha.
Qed.

(** C10: for any endpoint, outages and errors included, [gpt3_complete]
    refines the orchestration contract.  A result it returns is the
    concatenation, in the order of the chunks of 20, of the choices of
    one answered call per chunk, and the calls that answered come in
    increasing order from the first call made.  There are no partial,
    dropped or reordered results. *)
Theorem gpt3_complete_refines_spec texts w cs :
  fst (complete (TextsSeq texts) false w) = inr cs ->
  answered (w_endpoint w) req (w_calls w) (chunks 19 texts) cs.
Proof. apply complete_answered. Qed.
End Refinement.

(** The events that may happen while the bar is open: calls, log
    records, sleeps and bar updates. *)
Definition in_bar (ev : event) : Prop :=
  match ev with
  | EvCall _ | EvLog _ _ | EvSleep _ | EvProgressUpdate _ => True
  | _ => False
  end.

Lemma appends_in_bar_complete_batch model max_tokens kwargs acc b :
  appends in_bar (complete_batch model max_tokens kwargs acc b).
Proof.
  unfold complete_batch. destruct (retry_params kwargs) as [e|[m s]]; [apply appends_raise|].
  unfold complete_batch_with, openai_method_retry.
  apply appends_bind; [apply appends_retry_loop; simpl; auto|]. intros v.
  apply appends_bind; [apply appends_progress_update; exact I|auto with lmc_trace].
Qed.

(** C25: for any endpoint, stdin and batcher, with or without the cost
    gate: the trace is a run of confirmation prompts followed either by
    nothing, when the gate raised, or by the progress bar opened at
    [len(texts)], then only calls, log records, sleeps and updates, then
    the bar closed.  No call is made outside the bar, no prompt inside
    it, and the bar is never left open. *)
Theorem gpt3_complete_bar_closed `{Batcher} tokenize model max_tokens kwargs texts ask_if_ok w :
  exists ps, Forall prompt_event ps /\
    ((exists e, fst (gpt3_complete tokenize model max_tokens kwargs texts ask_if_ok w) = inl e /\
       w_trace (snd (gpt3_complete tokenize model max_tokens kwargs texts ask_if_ok w))
       = w_trace w ++ ps) \/
     (exists t, w_trace (snd (gpt3_complete tokenize model max_tokens kwargs texts ask_if_ok w))
       = w_trace w ++ ps ++ EvProgressOpen (length (normalize_texts texts)) :: t
           ++ [EvProgressClose] /\ Forall in_bar t)).
Proof.
  unfold gpt3_complete, bind.
  assert (Hg : appends prompt_event (if ask_if_ok
    then _openai_api_call_is_ok tokenize model (normalize_texts texts) max_tokens
    else ret tt)) by (destruct ask_if_ok; [apply appends_gate|apply appends_ret]).
  destruct (Hg w) as [_ (ps & T1 & F1)]. exists ps. split; [exact F1|].
  destruct (if ask_if_ok then _ else _) as [[e|[]] w1]; simpl in T1.
  - left. exists e. auto.
  - right.
    assert (Hb : appends in_bar
      (match batch (normalize_texts texts) _batch_size with
       | inl e => raise e
       | inr batches => fold_m (complete_batch model max_tokens kwargs) [] batches
       end))
      by (destruct (batch _ _); auto using appends_in_bar_complete_batch with lmc_trace).
    destruct (with_progress_shape _ (length (normalize_texts texts)) _ w1 Hb) as [_ (t & T & F)].
    exists t. rewrite T, T1, <- app_assoc. auto.
Qed.

(** ** Liveness: outages shorter than the retry budget *)

(** From every call index on, the endpoint answers a request [r] with
    [ans] applied to its prompts after fewer than [budget] retryable
    errors. *)
Definition recovers_within (ep : nat -> request -> exc + response)
           (ans : list string -> list choice) (budget : nat) : Prop :=
  forall i r, exists es, length es < budget /\
    (forall j e, nth_error es j = Some e -> ep (i + j) r = inl e /\ is_retryable e = true) /\
    ep (i + length es) r = inr (mk_response (ans (req_prompt r))).

Section Recovery.
Variables (model : string) (max_tokens : Z) (kwargs : list (string * kwval)).
Variables (max_num_tries : Z) (sleep_sec : Q).
Variable ans : list string -> list choice.
Hypothesis retry_bound : retry_params kwargs = inr (max_num_tries, sleep_sec).
Hypothesis sleep_nonneg : Qle_bool 0 sleep_sec = true.

Lemma complete_batch_recovers acc b w :
  recovers_within (w_endpoint w) ans (Z.to_nat max_num_tries) ->
  exists w', complete_batch model max_tokens kwargs acc b w = (inr (acc ++ ans b), w') /\
             w_endpoint w' = w_endpoint w.
Proof.
  intros Hrec. destruct (Hrec (w_calls w) (batch_request model max_tokens kwargs b))
    as (es & Hl & Hf & Hv).
  rewrite (complete_batch_params _ _ _ _ _ retry_bound). unfold complete_batch_with.
  rewrite (bind_inr _ _ _ _ _ (retry_success _ max_num_tries sleep_sec
             es _ w Hf Hv ltac:(lia) sleep_nonneg)).
  unfold progress_update. rewrite (bind_inr _ _ _ _ _ (emit_run _ _)).
  eexists. split; reflexivity.
Qed.

Lemma fold_batches_recovers bs acc w :
  recovers_within (w_endpoint w) ans (Z.to_nat max_num_tries) ->
  exists w', fold_m (complete_batch model max_tokens kwargs) acc bs w
             = (inr (acc ++ concat (map ans bs)), w') /\ w_endpoint w' = w_endpoint w.
Proof.
  revert acc w. induction bs as [|b bs IH]; intros acc w Hrec; simpl.
  - rewrite app_nil_r. eexists. split; reflexivity.
  - destruct (complete_batch_recovers acc b w Hrec) as (w1 & R1 & E1).
    rewrite (bind_inr _ _ _ _ _ R1).
    destruct (IH (acc ++ ans b) w1 ltac:(rewrite E1; exact Hrec)) as (w2 & R2 & E2).
    rewrite R2, <- app_assoc. eexists. split; [reflexivity|congruence].
Qed.
End Recovery.

(** C26: liveness of the retry wrapper in the pipeline.  Let the
    keyword arguments bind [max_num_tries] and a non-negative
    [sleep_sec] (by default 5 and 10).  If, from every call index on,
    the endpoint answers each request after fewer than [max_num_tries]
    retryable errors, [gpt3_complete] returns, and it returns the
    same choices as an endpoint that never fails ([gpt3_complete_answers]
    for [ans = answers_from 0 f]): the outages are invisible in the
    result. *)
Theorem gpt3_complete_recovers `{Batcher} tokenize model max_tokens kwargs max_num_tries sleep_sec
    ans texts w :
  retry_params kwargs = inr (max_num_tries, sleep_sec) -> Qle_bool 0 sleep_sec = true ->
  recovers_within (w_endpoint w) ans (Z.to_nat max_num_tries) ->
  fst (gpt3_complete tokenize model max_tokens kwargs (TextsSeq texts) false w)
  = inr (concat (map ans (chunks 19 texts))).
Proof.
  intros Hp Hs Hrec. rewrite complete_nogate_run.
  destruct (fold_batches_recovers model max_tokens kwargs max_num_tries sleep_sec ans Hp Hs
              (chunks 19 texts) []
              (add_events [EvProgressOpen (length texts)] w) Hrec) as (w' & R & _).
  rewrite R. reflexivity.
Qed.

(** ** Error: an outage that outlasts the retry budget *)

(** Every call fails with a retryable error. *)
Definition outage (ep : nat -> request -> exc + response) : Prop :=
  forall i r, match ep i r with inl e => is_retryable e = true | inr _ => False end.

(** The error of the [i]-th call with [r] (only read under [outage]). *)
Definition err_at (ep : nat -> request -> exc + response) (i : nat) (r : request) : exc :=
  match ep i r with inl e => e | inr _ => UserCanceled end.

(** The errors of the next [n] calls with [r]. *)
Definition outage_errors (w : world) (r : request) (n : nat) : list exc :=
  map (fun j => err_at (w_endpoint w) (w_calls w + j) r) (seq 0 n).

Lemma outage_fails_with w r n :
  outage (w_endpoint w) -> fails_with r w (outage_errors w r n).
Proof.
  intros Ho j e Hj. unfold outage_errors in Hj.
  rewrite nth_error_map, nth_error_seq in Hj. destruct (j <? n); [|discriminate].
  injection Hj as <-. unfold err_at. specialize (Ho (w_calls w + j) r). simpl (0 + j).
  destruct (w_endpoint w _ r); [auto|contradiction].
Qed.

Lemma length_outage_errors w r n : length (outage_errors w r n) = n.
Proof. unfold outage_errors. rewrite length_map, length_seq. reflexivity. Qed.

Lemma outage_errors_S w r n :
  outage_errors w r (S n) = outage_errors w r n ++ [err_at (w_endpoint w) (w_calls w + n) r].
Proof. unfold outage_errors. rewrite seq_S, map_app. reflexivity. Qed.

Lemma fails_trace_shape r s k es :
  calls_of (fails_trace r s k es) = repeat r (length es) /\
  progress_of (fails_trace r s k es) = [].
Proof.
  revert k. induction es as [|e es IH]; intros k; [auto|].
  simpl. destruct (IH (k + 1)%Z) as [C P]. rewrite C, P. auto.
Qed.

Section Outage.
Variables (model : string) (max_tokens : Z) (kwargs : list (string * kwval)).
Variables (max_num_tries : Z) (sleep_sec : Q).
Hypothesis retry_bound : retry_params kwargs = inr (max_num_tries, sleep_sec).
Hypothesis tries_pos : (0 < max_num_tries)%Z.
Hypothesis sleep_nonneg : Qle_bool 0 sleep_sec = true.
#[local] Abbreviation req := (batch_request model max_tokens kwargs).

Lemma complete_batch_outage acc b w :
  outage (w_endpoint w) ->
  complete_batch model max_tokens kwargs acc b w
  = (inl (err_at (w_endpoint w) (w_calls w + (Z.to_nat max_num_tries - 1)) (req b)),
     after_fails (req b) sleep_sec w (outage_errors w (req b) (Z.to_nat max_num_tries)) 0
       [EvLog ERROR (LogMaxRetries
          (err_at (w_endpoint w) (w_calls w + (Z.to_nat max_num_tries - 1)) (req b)))]).
Proof.
  intros Ho. rewrite (complete_batch_params _ _ _ _ _ retry_bound). unfold complete_batch_with.
  apply bind_inl. assert (Hn : Z.of_nat (Z.to_nat max_num_tries) = max_num_tries) by lia.
  destruct (Z.to_nat max_num_tries) as [|n]; [lia|]. rewrite Nat.sub_succ, Nat.sub_0_r.
  pose proof (outage_fails_with w (req b) (S n) Ho) as Hf. rewrite outage_errors_S in *.
  apply (retry_exhausts (req b) max_num_tries sleep_sec); [exact Hf| |exact sleep_nonneg].
  rewrite length_outage_errors. exact Hn.
Qed.
End Outage.

(** C27: let the keyword arguments bind [max_num_tries >= 1] and a
    non-negative [sleep_sec] (by default 5 and 10).  When every call
    fails with a retryable error, [gpt3_complete] (without the gate, on
    a non-empty input) raises the error of call number
    [max_num_tries].  All [max_num_tries] calls are with the first batch
    of 20 texts, and each is followed by a sleep.  The last event in the bar is the
    "Max retries exceeded" record.  The bar is not advanced, and it is
    closed. *)
Theorem gpt3_complete_outage `{Batcher} tokenize model max_tokens kwargs max_num_tries sleep_sec
    texts w :
  retry_params kwargs = inr (max_num_tries, sleep_sec) -> (0 < max_num_tries)%Z ->
  Qle_bool 0 sleep_sec = true ->
  texts <> [] -> outage (w_endpoint w) ->
  let e := err_at (w_endpoint w) (w_calls w + (Z.to_nat max_num_tries - 1))
             (batch_request model max_tokens kwargs (firstn 20 texts)) in
  fst (gpt3_complete tokenize model max_tokens kwargs (TextsSeq texts) false w) = inl e /\
  exists t,
    w_trace (snd (gpt3_complete tokenize model max_tokens kwargs (TextsSeq texts) false w))
    = w_trace w ++ EvProgressOpen (length texts)
        :: t ++ [EvLog ERROR (LogMaxRetries e); EvProgressClose] /\
    calls_of t = repeat (batch_request model max_tokens kwargs (firstn 20 texts))
                   (Z.to_nat max_num_tries) /\
    progress_of t = [] /\ count_if is_sleep t = Z.to_nat max_num_tries.
Proof.
  intros Hp Hm Hs Hne Ho e. rewrite complete_nogate_run, chunks_cons by exact Hne.
  cbn [fold_m]. rewrite (bind_inl _ _ _ _ _ (complete_batch_outage model max_tokens kwargs
                           max_num_tries sleep_sec Hp Hm Hs
                           [] _ (add_events [EvProgressOpen (length texts)] w) Ho)).
  split; [reflexivity|].
  set (r := batch_request model max_tokens kwargs (firstn 20 texts)).
  set (es := outage_errors _ r (Z.to_nat max_num_tries)).
  exists (fails_trace r sleep_sec 0 es).
  destruct (fails_trace_shape r sleep_sec 0 es) as [C P].
  assert (Hl : length es = Z.to_nat max_num_tries) by apply length_outage_errors.
  rewrite Hl in C.
  split; [|split; [exact C|split; [exact P|rewrite fails_trace_sleeps; exact Hl]]].
  unfold after_fails. cbn. rewrite <- !app_assoc. reflexivity.
Qed.

(** ** Several choices per prompt ([n > 1] in the keyword arguments) *)

Section Multiple.
Variable g : string -> list choice.
Variable m : nat.
Hypothesis g_length : forall p, length (g p) = m.

Lemma length_flat_map_const l : length (flat_map g l) = m * length l.
Proof.
  induction l as [|p l IH]; simpl; [lia|]. rewrite length_app, g_length, IH. lia.
Qed.

Lemma concat_map_flat_map (bs : list (list string)) :
  concat (map (flat_map g) bs) = flat_map g (concat bs).
Proof. induction bs as [|b bs IH]; simpl; [reflexivity|]. rewrite flat_map_app, IH. reflexivity. Qed.
End Multiple.

(** C28: the keyword arguments other than the retry wrapper's are
    forwarded unchecked.  If they leave the wrapper at its defaults and
    ask for [m] completions per prompt ([n=m]), so that the endpoint
    answers every prompt [p] with the [m] choices [g p], the result holds
    [m * len(texts)] choices: for [m <> 1] it is no longer one choice per
    text. *)
Theorem gpt3_complete_multiple_choices `{Batcher} tokenize model max_tokens kwargs g m texts w :
  retry_params kwargs = inr (default_max_num_tries, default_sleep_sec) ->
  answers_by (w_endpoint w) (flat_map g) -> (forall p, length (g p) = m) ->
  exists cs, fst (gpt3_complete tokenize model max_tokens kwargs (TextsSeq texts) false w)
             = inr cs /\ length cs = m * length texts.
Proof.
  intros Hd Hans Hg. rewrite (complete_answers_by _ _ _ _ Hd _ texts w Hans).
  eexists. split; [reflexivity|].
  rewrite concat_map_flat_map, (length_flat_map_const g m Hg), chunks_concat. reflexivity.
Qed.

(** ** Keyword arguments the call cannot bind *)


(** ** The gate and the pipeline together *)

(** C30: confirming at the prompt changes nothing but the prompts: the
    run with [ask_if_ok], once the operator types ["y"] after the lines
    [junk], is the run without the gate from the world where the prompts
    were shown and the lines read.  This holds for any endpoint. *)
Theorem gpt3_complete_confirmed `{Batcher} tokenize model max_tokens kwargs texts junk rest w :
  Forall (fun l => is_yn l = false) junk ->
  w_stdin w = junk ++ "y"%string :: rest ->
  gpt3_complete tokenize model max_tokens kwargs (TextsSeq texts) true w
  = gpt3_complete tokenize model max_tokens kwargs (TextsSeq texts) false
      (after_prompts tokenize model texts max_tokens w rest (S (length junk))).
Proof.
  intros Hj Hin. unfold gpt3_complete. cbn [normalize_texts]. rewrite bind_ret_l.
  erewrite bind_inr; [reflexivity|].
  rewrite (gate_answer tokenize model texts max_tokens junk "y" rest w Hj eq_refl Hin).
  reflexivity.
Qed.

(** [sum(...)] of token counts. *)
Definition sum_Z (l : list Z) : Z := fold_right Z.add 0%Z l.

Lemma sum_Z_app l1 l2 : sum_Z (l1 ++ l2) = (sum_Z l1 + sum_Z l2)%Z.
Proof. induction l1 as [|x l1 IH]; simpl; [reflexivity|]. rewrite IH. lia. Qed.

Lemma num_tokens_app tokenize l1 l2 max_tokens :
  num_tokens tokenize (l1 ++ l2) max_tokens
  = (num_tokens tokenize l1 max_tokens + num_tokens tokenize l2 max_tokens)%Z.
Proof.
  unfold num_tokens. rewrite fold_right_app, length_app.
  assert (Hf : forall l a, fold_right (fun t acc => length (tokenize t) + acc) a l
                           = fold_right (fun t acc => length (tokenize t) + acc) 0 l + a)
    by (induction l as [|x l IH]; intros a; simpl; [reflexivity|]; rewrite IH; lia).
  rewrite Hf. lia.
Qed.

Lemma num_tokens_concat tokenize bs max_tokens :
  num_tokens tokenize (concat bs) max_tokens
  = sum_Z (map (fun b => num_tokens tokenize b max_tokens) bs).
Proof.
  induction bs as [|b bs IH]; simpl; [reflexivity|]. rewrite num_tokens_app, IH. reflexivity.
Qed.

(** C31: the estimate the gate shows is exactly what the pipeline sends:
    on an endpoint that answers, with the retry wrapper at its defaults,
    the estimate of [texts] (line 76) is the sum of the estimates of the
    prompt lists of the calls [gpt3_complete] makes. *)
Theorem gpt3_complete_estimate_covers_calls `{Batcher} tokenize model max_tokens kwargs f texts w :
  retry_params kwargs = inr (default_max_num_tries, default_sleep_sec) ->
  answers_all (w_endpoint w) f ->
  exists t, w_trace (snd (gpt3_complete tokenize model max_tokens kwargs (TextsSeq texts) false w))
            = w_trace w ++ t /\
    sum_Z (map (fun r => num_tokens tokenize (req_prompt r) max_tokens) (calls_of t))
    = num_tokens tokenize texts max_tokens.
Proof.
  intros Hd Hf. rewrite (complete_answers _ _ _ _ Hd f texts w Hf). eexists. split; [reflexivity|].
  cbn [calls_of]. rewrite calls_of_app, calls_of_batches. cbn [calls_of].
  rewrite app_nil_r, map_map. cbn [req_prompt batch_request].
  rewrite <- num_tokens_concat, chunks_concat. reflexivity.
Qed.

(** ** Witnesses, with the [Batch] instance of [batch.constant] *)

(** Every even-numbered call is rate limited; the odd ones answer. *)
Definition flaky_endpoint (i : nat) (r : request) : exc + response :=
  if Nat.even i then inl (RateLimitError "busy")
  else inr (mk_response (answers_from 0 ex_answer (req_prompt r))).

Lemma flaky_endpoint_recovers : recovers_within flaky_endpoint (answers_from 0 ex_answer) (Z.to_nat 2).
Proof.
  intros i r. unfold flaky_endpoint. destruct (Nat.even i) eqn:Ei.
  - exists [RateLimitError "busy"]. split; [simpl; lia|split].
    + intros [|j] e Hj; [|destruct j; discriminate]. injection Hj as <-.
      rewrite Nat.add_0_r, Ei. auto.
    + simpl. rewrite Nat.add_1_r, Nat.even_succ, <- Nat.negb_even, Ei. reflexivity.
  - exists []. split; [simpl; lia|split].
    + intros [|j] e Hj; discriminate.
    + simpl. rewrite Nat.add_0_r, Ei. reflexivity.
Qed.

#[local] Abbreviation ex_complete := (gpt3_complete ex_tokenize "text-ada-001" 0 ex_kwargs).

(** Two tries, the default sleep, and a forwarded keyword. *)
Definition ex_two_tries : list (string * kwval) :=
  [("max_num_tries"%string, KwInt 2); ("temperature"%string, KwInt 0)].

(** Three tries, half a second apart. *)
Definition ex_three_tries : list (string * kwval) :=
  [("max_num_tries"%string, KwInt 3); ("sleep_sec"%string, KwFloat (1 # 2))].

Lemma gpt3_complete_recovers_witness :
  retry_params ex_two_tries = inr (2%Z, 10%Q) /\ Qle_bool 0 10 = true /\
  recovers_within flaky_endpoint (answers_from 0 ex_answer) (Z.to_nat 2) /\
  fst (gpt3_complete ex_tokenize "text-ada-001" 0 ex_two_tries (TextsSeq ex_texts) false
         (mk_world flaky_endpoint 0 [] []))
  = inr (concat (map (answers_from 0 ex_answer) (chunks 19 ex_texts))).
Proof.
  split; [reflexivity|]. split; [reflexivity|]. split; [apply flaky_endpoint_recovers|].
  apply (gpt3_complete_recovers ex_tokenize "text-ada-001" 0 ex_two_tries 2 10);
    [reflexivity|reflexivity|apply flaky_endpoint_recovers].
Defined.

Definition down_endpoint (_ : nat) (_ : request) : exc + response :=
  inl (ServiceUnavailableError "down").

Lemma gpt3_complete_outage_witness :
  retry_params ex_three_tries = inr (3%Z, 1 # 2) /\ (0 < 3)%Z /\ Qle_bool 0 (1 # 2) = true /\
  ["a"%string] <> [] /\ outage down_endpoint /\
  let e := err_at down_endpoint (0 + (Z.to_nat 3 - 1))
             (batch_request "text-ada-001" 0 ex_three_tries (firstn 20 ["a"%string])) in
  fst (gpt3_complete ex_tokenize "text-ada-001" 0 ex_three_tries (TextsSeq ["a"%string]) false
         (mk_world down_endpoint 0 [] [])) = inl e /\
  exists t,
    w_trace (snd (gpt3_complete ex_tokenize "text-ada-001" 0 ex_three_tries (TextsSeq ["a"%string])
                    false (mk_world down_endpoint 0 [] [])))
    = [] ++ EvProgressOpen 1 :: t ++ [EvLog ERROR (LogMaxRetries e); EvProgressClose] /\
    calls_of t = repeat (batch_request "text-ada-001" 0 ex_three_tries (firstn 20 ["a"%string]))
                   (Z.to_nat 3) /\
    progress_of t = [] /\ count_if is_sleep t = Z.to_nat 3.
Proof.
  split; [reflexivity|]. split; [lia|]. split; [reflexivity|].
  split; [discriminate|]. split; [intros i r; reflexivity|].
  apply (gpt3_complete_outage ex_tokenize "text-ada-001" 0 ex_three_tries 3 (1 # 2) ["a"%string]
           (mk_world down_endpoint 0 [] []));
    [reflexivity|lia|reflexivity|discriminate|intros i r; reflexivity].
Defined.

(** The run of the 45 texts against the flaky endpoint, two tries per batch. *)
#[local] Abbreviation ex_flaky_run :=
  (gpt3_complete ex_tokenize "text-ada-001" 0 ex_two_tries (TextsSeq ex_texts) false
     (mk_world flaky_endpoint 0 [] [])).

Lemma gpt3_complete_call_order_witness :
  retry_params ex_two_tries = inr (2%Z, 10%Q) /\ (0 < 2)%Z /\
  exists ks t,
    w_trace (snd ex_flaky_run) = [] ++ EvProgressOpen (length ex_texts) :: t ++ [EvProgressClose] /\
    calls_of t = planned_calls (batch_request "text-ada-001" 0 ex_two_tries) (chunks 19 ex_texts) ks /\
    length ks <= length (chunks 19 ex_texts) /\ Forall (fun k => 1 <= k <= Z.to_nat 2) ks /\
    match fst ex_flaky_run with
    | inr _ => length ks = length (chunks 19 ex_texts) /\
               progress_of t = map (@length string) (chunks 19 ex_texts)
    | inl _ => ks <> [] /\
               progress_of t = map (@length string) (firstn (length ks - 1) (chunks 19 ex_texts))
    end.
Proof.
  split; [reflexivity|]. split; [lia|].
  apply (gpt3_complete_call_order ex_tokenize "text-ada-001" 0 ex_two_tries 2 10); [reflexivity|lia].
Defined.

Lemma gpt3_complete_balance_witness :
  retry_params ex_two_tries = inr (2%Z, 10%Q) /\ (0 < 2)%Z /\
  exists t,
    w_trace (snd ex_flaky_run) = [] ++ EvProgressOpen (length ex_texts) :: t ++ [EvProgressClose] /\
    count_if is_call t = count_if is_sleep t + length (progress_of t) + fatal (fst ex_flaky_run).
Proof.
  split; [reflexivity|]. split; [lia|].
  apply (gpt3_complete_balance ex_tokenize "text-ada-001" 0 ex_two_tries 2 10); [reflexivity|lia].
Defined.


(** An endpoint that answers every request with [ans]. *)
Definition answering_endpoint_by (ans : list string -> list choice)
  : nat -> request -> exc + response :=
  fun _ r => inr (mk_response (ans (req_prompt r))).

(** Two completions per prompt. *)
Definition two_choices (p : string) : list choice :=
  [mk_choice 0 p "length"; mk_choice 1 p "length"].

Lemma gpt3_complete_multiple_choices_witness :
  retry_params ex_kwargs = inr (default_max_num_tries, default_sleep_sec) /\
  answers_by (answering_endpoint_by (flat_map two_choices)) (flat_map two_choices) /\
  exists cs, fst (ex_complete (TextsSeq ex_texts) false
                    (mk_world (answering_endpoint_by (flat_map two_choices)) 0 [] []))
             = inr cs /\ length cs = 2 * length ex_texts.
Proof.
  split; [reflexivity|]. split; [intros i r; reflexivity|].
  apply (gpt3_complete_multiple_choices ex_tokenize "text-ada-001" 0 ex_kwargs two_choices 2);
    [reflexivity|intros i r; reflexivity|intros p; reflexivity].
Defined.

Lemma gpt3_complete_confirmed_witness :
  Forall (fun l => is_yn l = false) ["maybe"%string] /\
  w_stdin (mk_world (answering_endpoint ex_answer) 0 ["maybe"; "y"]%string []) = ["maybe"%string] ++ "y"%string :: [] /\
  ex_complete (TextsSeq ex_texts) true (mk_world (answering_endpoint ex_answer) 0 ["maybe"; "y"]%string [])
  = ex_complete (TextsSeq ex_texts) false
      (after_prompts ex_tokenize "text-ada-001" ex_texts 0
         (mk_world (answering_endpoint ex_answer) 0 ["maybe"; "y"]%string []) [] 2).
Proof.
  split; [repeat constructor|]. split; [reflexivity|].
  apply (gpt3_complete_confirmed ex_tokenize "text-ada-001" 0 ex_kwargs ex_texts ["maybe"%string] []);
    [repeat constructor|reflexivity].
Defined.

Lemma gpt3_complete_estimate_covers_calls_witness :
  retry_params ex_kwargs = inr (default_max_num_tries, default_sleep_sec) /\
  answers_all (w_endpoint ex_world) ex_answer /\
  exists t, w_trace (snd (ex_complete (TextsSeq ex_texts) false ex_world)) = w_trace ex_world ++ t /\
    sum_Z (map (fun r => num_tokens ex_tokenize (req_prompt r) 0) (calls_of t))
    = num_tokens ex_tokenize ex_texts 0.
Proof.
  split; [reflexivity|]. split; [apply answering_endpoint_answers|].
  apply (gpt3_complete_estimate_covers_calls ex_tokenize "text-ada-001" 0 ex_kwargs ex_answer);
    [reflexivity|apply answering_endpoint_answers].
Defined.

Lemma gpt3_complete_refines_spec_witness :
  fst (ex_complete (TextsSeq ["a"; "b"]%string) false ex_world)
  = inr [ex_answer 0 "a"; ex_answer 1 "b"]%string /\
  answered (w_endpoint ex_world) (batch_request "text-ada-001" 0 ex_kwargs) (w_calls ex_world)
    (chunks 19 ["a"; "b"]%string) [ex_answer 0 "a"; ex_answer 1 "b"]%string.
Proof.
  assert (H : fst (ex_complete (TextsSeq ["a"; "b"]%string) false ex_world)
              = inr [ex_answer 0 "a"; ex_answer 1 "b"]%string) by reflexivity.
  split; [exact H|].
  exact (gpt3_complete_refines_spec ex_tokenize "text-ada-001" 0 ex_kwargs _ _ _ H).
Defined.
