(* ===== verification/ModuleInit.v ===== *)
(** * Module initialisation (api.py:22-25)

    Importing [api.py] reads [OPENAI_API_KEY] from the environment into
    [openai.api_key] (line 22) and loads the GPT-2 tokenizer (line 25),
    which the cost gate uses as its [tokenize].  [module_init] is that
    state, built from the environment [os.environ] (a [gmap]) and the
    loader [GPT2Tokenizer.from_pretrained], which is outside the program.
    No function of [api.py] reads [openai.api_key]; what the [openai]
    client does with it (it also consults [openai.api_key_path] and the
    [OPENAI_API_KEY_PATH] variable) is the library's, so no theorem here
    rests on it. *)

From Stdlib Require Import String List ZArith.
From stdpp Require Import gmap strings.
Import ListNotations.

(** The module-level state the functions read. *)
Record module_state : Type := mk_module_state {
  api_key : option string;
  gpt2_tokenizer : string -> list Z
}.

(** Lines 22-25: [openai.api_key = os.getenv('OPENAI_API_KEY')] and
    [gpt2_tokenizer = GPT2Tokenizer.from_pretrained('gpt2')]. *)
Definition module_init (environ : gmap string string)
           (from_pretrained : string -> string -> list Z) : module_state :=
  mk_module_state (environ !! "OPENAI_API_KEY"%string) (from_pretrained "gpt2"%string).

